(** * BaseMultiModalModel: batch execution, retries and chat history

    A shallow embedding of [swarms/models/base_multimodal_model.py].

    The class is an adapter base: [run] is the model call that subclasses
    supply, and the methods verified here ([run_many], [run_batch],
    [run_with_retries], [run_batch_with_retries], the chat-history
    queries) are written against it.  The embedding therefore takes [run]
    as given: a function of the task, the image and the state of the
    outside world, which yields the new state and either a value or a
    raised exception.  The methods thread that state and a trace of what
    they do (calls of [run], printed lines) through their steps. *)

From Stdlib Require Import ZArith Lia.
From Stdlib.Strings Require Byte.
From Stdlib Require Import Ascii.
From stdpp Require Import base list gmap strings.

Local Open Scope Z_scope.

(** ** Python values, exceptions, outcomes *)

(** The objects the methods hand around: [None], a string (the model's
    answer), a list (the batch result). *)
#[local] Unset Elimination Schemes.
Inductive value : Type :=
  | VNone
  | VStr (s : string)
  | VList (vs : list value).
#[local] Set Elimination Schemes.

(** An exception object, as far as the handlers of the module tell
    exceptions apart: [Exception msg] is an instance of [Exception] or of
    one of its subclasses, the errors that both [except] clauses name;
    [BaseException msg] is one that derives from [BaseException] only
    ([KeyboardInterrupt], [SystemExit], ...).  [msg] is its [str]. *)
Inductive exn : Type :=
  | Exception (msg : string)
  | BaseException (msg : string).

(** How a call ends: it returns or it raises. *)
Inductive res (A : Type) : Type :=
  | Ret (a : A)
  | Raise (e : exn).
Arguments Ret {A} a.
Arguments Raise {A} e.

Definition is_ret {A} (o : res A) : bool :=
  match o with Ret _ => true | Raise _ => false end.

(** A call that failed: it raised an error with the message [msg]. *)
Definition failure {A} (msg : string) : res A := Raise (Exception msg).

(** What a caller can observe of a method besides its outcome: the
    invocations of [self.run] and the lines written by [print]. *)
Inductive event : Type :=
  | EvRun (task img : string)      (* self.run(task, img) *)
  | EvPrint (v : value)            (* print(result) *)
  | EvPrintError (e : exn).        (* print(f"Error with the request {error}") *)

(** The invocations of [run] recorded in a trace, in order. *)
Fixpoint calls (tr : list event) : list (string * string) :=
  match tr with
  | [] => []
  | EvRun task img :: tr' => (task, img) :: calls tr'
  | _ :: tr' => calls tr'
  end.

(** ** The object *)

(** The fields of [__init__] that the verified methods read; the others
    (temperature, top_p, device, ...) are passive data. *)
Record BaseMultiModalModel : Type := {
  model_name : option string;
  max_workers : option Z;
  retries : Z;
  chat_history : list string
}.

(** [BaseMultiModalModel(model_name, max_workers=..., retries=...)]: the
    constructor stores its arguments and starts with an empty history.
    Left out, the keyword arguments are [max_workers=10] and
    [retries=3]. *)
Definition __init__ (model_name : option string) (max_workers : option Z)
    (retries : Z) : BaseMultiModalModel :=
  {| model_name := model_name; max_workers := max_workers;
     retries := retries; chat_history := [] |}.

(** [self.chat_history = h] *)
Definition set_chat_history (h : list string) (self : BaseMultiModalModel) :=
  {| model_name := model_name self; max_workers := max_workers self;
     retries := retries self; chat_history := h |}.

(** ** The thread pools

    [ThreadPoolExecutor(max_workers)] of [concurrent.futures] gives the
    number of workers of the new pool: without an argument it is
    [min(32, (os.cpu_count() or 1) + 4)]; a size that is not positive is
    refused with [ValueError].  [cpus] stands for [os.cpu_count() or 1],
    a positive number. *)
Definition default_max_workers (cpus : positive) : Z :=
  Z.min 32 (Z.pos cpus + 4).

Definition ThreadPoolExecutor (cpus : positive) (workers : option Z) : res Z :=
  let n := match workers with
           | None => default_max_workers cpus
           | Some n => n
           end in
  if n <=? 0 then Raise (Exception "max_workers must be greater than 0")
  else Ret n.

(** The pool each batch method works with.

    [run_many]: [ThreadPoolExecutor(max_workers=self.max_workers)]. *)
Definition run_many_executor (cpus : positive) (self : BaseMultiModalModel)
    : res Z :=
  ThreadPoolExecutor cpus (max_workers self).

(** [run_batch]: [concurrent.futures.ThreadPoolExecutor()]; [self] is not
    consulted. *)
Definition run_batch_executor (cpus : positive) (self : BaseMultiModalModel)
    : res Z :=
  ThreadPoolExecutor cpus None.

(** [run_batch_async]: [loop.run_in_executor(None, ...)], the [None]
    selecting the default executor of the event loop, which the loop
    builds as a [ThreadPoolExecutor] without a size; [self] is not
    consulted. *)
Definition run_batch_async_executor (cpus : positive)
    (self : BaseMultiModalModel) : res Z :=
  ThreadPoolExecutor cpus None.

(** ** State and the methods *)

Section BatchRunner.

Context {World : Type}.

(** The collaborator [self.run(task, img)]. *)
Variable run : string -> string -> World -> World * res value.

(** The machine: [os.cpu_count() or 1]. *)
Variable cpus : positive.

Record state : Type := State {
  world : World;
  trace : list event
}.

(** Computations of the methods: state in, state and outcome out. *)
Definition M (A : Type) : Type := state -> state * res A.

Definition ret {A} (a : A) : M A := fun s => (s, Ret a).

Definition raise {A} (e : exn) : M A := fun s => (s, Raise e).

Definition bind {A B} (m : M A) (k : A -> M B) : M B :=
  fun s => match m s with
           | (s', Ret a) => k a s'
           | (s', Raise e) => (s', Raise e)
           end.

(** [try: return m  except Exception as error: h error]: the handler
    is for instances of [Exception]; any other exception passes. *)
Definition try_except {A} (m : M A) (h : exn -> M A) : M A :=
  fun s => match m s with
           | (s', Ret a) => (s', Ret a)
           | (s', Raise (Exception msg)) => h (Exception msg) s'
           | (s', Raise (BaseException msg)) => (s', Raise (BaseException msg))
           end.

Definition emit (ev : event) : M unit :=
  fun s => (State (world s) (trace s ++ [ev]), Ret tt).

(** [self.run(task, img)], recorded in the trace. *)
Definition call_run (task img : string) : M value :=
  fun s => let '(w', o) := run task img (world s) in
           (State w' (trace s ++ [EvRun task img]), o).

(** *** run_with_retries, run_batch_with_retries

    [for i in range(n): try: return body  except Exception as error:
    print(...); continue], then the fall through the end of the
    function, which returns [None]. *)
Fixpoint retry_loop (n : nat) (body : M value) : M value :=
  match n with
  | O => ret VNone
  | S n' =>
      try_except body
        (fun error => bind (emit (EvPrintError error))
                           (fun _ => retry_loop n' body))
  end.

(** [range(k)] runs its body [k] times, and not at all for [k <= 0]. *)
Definition range_len (k : Z) : nat := Z.to_nat k.

Definition run_with_retries (self : BaseMultiModalModel)
    (task img : string) : M value :=
  retry_loop (range_len (retries self)) (call_run task img).

(** *** The pool at work

    [executor.submit(self.run, task, img)] for every pair, in order; a
    future holds the outcome of its call.  Every submitted call is
    performed, also after one of them raised: leaving the [with] block
    waits for the pool.  The calls act on the world one after the other,
    in the order of submission, the order in which the queue of the pool
    hands them to its workers; how calls that run at the same time
    interleave is not represented here ([Pool] below is about how many
    of them may run at once).  What is stated about a batch below is
    therefore stated on what its futures hold, on the outcomes of whole
    attempts, or for a [run] whose outcome does not depend on the world:
    none of these depends on the order in which the calls acted. *)
Fixpoint submit_all (tasks_images : list (string * string)) (s : state)
    : state * list (res value) :=
  match tasks_images with
  | [] => (s, [])
  | (task, img) :: rest =>
      let '(s1, o) := call_run task img s in
      let '(s2, os) := submit_all rest s1 in
      (s2, o :: os)
  end.

(** [[future.result() for future in futures]]: the first future that
    holds an exception re-raises it. *)
Fixpoint collect (futures : list (res value)) : res (list value) :=
  match futures with
  | [] => Ret []
  | Ret v :: rest =>
      match collect rest with
      | Ret vs => Ret (v :: vs)
      | Raise e => Raise e
      end
  | Raise e :: _ => Raise e
  end.

Definition run_batch (self : BaseMultiModalModel)
    (tasks_images : list (string * string)) : M value :=
  fun s =>
    match run_batch_executor cpus self with
    | Raise e => (s, Raise e)
    | Ret _ =>
        let '(s', futures) := submit_all tasks_images s in
        match collect futures with
        | Ret results => (s', Ret (VList results))
        | Raise e => (s', Raise e)
        end
    end.

Definition run_batch_with_retries (self : BaseMultiModalModel)
    (tasks_images : list (string * string)) : M value :=
  retry_loop (range_len (retries self)) (run_batch self tasks_images).

(** *** run_many

    [executor.map(self.run, tasks, imgs)] submits one call per element
    of [zip(tasks, imgs)]; the loop after the [with] block prints the
    results in order and re-raises at the first call that raised.  The
    function has no [return]. *)
Fixpoint print_results (results : list (res value)) : M value :=
  match results with
  | [] => ret VNone
  | Ret result :: rest =>
      bind (emit (EvPrint result)) (fun _ => print_results rest)
  | Raise e :: _ => raise e
  end.

Definition run_many (self : BaseMultiModalModel)
    (tasks imgs : list string) : M value :=
  fun s =>
    match run_many_executor cpus self with
    | Raise e => (s, Raise e)
    | Ret _ =>
        let '(s', results) := submit_all (zip tasks imgs) s in
        print_results results s'
    end.

(** *** Consecutive executions

    The outcomes of [n] executions of [body] in a row, nothing else
    touching the world in between, and the world they leave. *)
Fixpoint outcomes (body : M value) (n : nat) (w : World)
    : list (res value) * World :=
  match n with
  | O => ([], w)
  | S n' =>
      let '(s1, o) := body (State w []) in
      let '(os, w') := outcomes body n' (world s1) in
      (o :: os, w')
  end.

(** [body] adds the events [evs] to the trace, whatever the trace was,
    and the trace does not influence what it does. *)
Definition emits (body : M value) (evs : list event) : Prop :=
  forall w tr,
    body (State w tr) =
      (State (world (body (State w [])).1) (tr ++ evs),
       (body (State w [])).2).

(** The events of the failed attempts of a retry loop: per error, the
    events of the body and the line about the error. *)
Definition failed_attempts (evs : list event) (msgs : list string)
    : list event :=
  flat_map (fun msg => evs ++ [EvPrintError (Exception msg)]) msgs.

(** The events of a whole batch. *)
Definition batch_events (tasks_images : list (string * string)) : list event :=
  map (fun p => EvRun p.1 p.2) tasks_images.

End BatchRunner.

Arguments State {World} world trace.
Arguments world {World} s.
Arguments trace {World} s.

(** ** Chat history *)

Section ChatHistory.

(** [list(a_set)]: the members of a Python set in the order in which
    the set iterates, an order the language leaves open ([iter_order]
    is taken as given; the facts below ask only that it enumerates the
    members, each once). *)
Variable iter_order : gset string -> list string.

(** [list(set(self.chat_history))] *)
Definition unique_chat_history (self : BaseMultiModalModel) : list string :=
  iter_order (list_to_set (chat_history self)).

Definition get_chat_history (self : BaseMultiModalModel) : list string :=
  chat_history self.

Definition get_unique_chat_history (self : BaseMultiModalModel) : list string :=
  iter_order (list_to_set (chat_history self)).

Definition get_chat_history_length (self : BaseMultiModalModel) : nat :=
  length (chat_history self).

Definition get_unique_chat_history_length (self : BaseMultiModalModel) : nat :=
  length (iter_order (list_to_set (chat_history self))).

Definition clear_chat_history (self : BaseMultiModalModel) : BaseMultiModalModel :=
  set_chat_history [] self.

End ChatHistory.

(** ** The worker pool

    What [concurrent.futures] guarantees about a pool, as a transition
    system on counters: a pool of [workers] threads holds calls that wait
    in its queue, calls that a thread is executing, and calls that are
    done.  A waiting call starts only when a thread is free. *)
Module Pool.

Record pool : Type := {
  workers : nat;
  queued : nat;
  running : nat;
  finished : nat
}.

Inductive action : Type :=
  | Start       (* a free worker takes the next call from the queue *)
  | Finish.     (* a worker completes its call *)

Definition step (a : action) (p : pool) : option pool :=
  match a with
  | Start =>
      if ((0 <? queued p) && (running p <? workers p))%nat
      then Some {| workers := workers p; queued := pred (queued p);
                   running := S (running p); finished := finished p |}
      else None
  | Finish =>
      if (0 <? running p)%nat
      then Some {| workers := workers p; queued := queued p;
                   running := pred (running p);
                   finished := S (finished p) |}
      else None
  end.

(** A schedule is a sequence of actions, each enabled when its turn
    comes. *)
Fixpoint exec (acts : list action) (p : pool) : option pool :=
  match acts with
  | [] => Some p
  | a :: acts' =>
      match step a p with
      | Some p' => exec acts' p'
      | None => None
      end
  end.

(** A new pool of [n] workers to which [pending] calls have been
    submitted. *)
Definition submitted (n : Z) (pending : nat) : pool :=
  {| workers := Z.to_nat n; queued := pending; running := 0; finished := 0 |}.

(** The pool of [run_many] once [executor.map] has submitted one call per
    element of [zip(tasks, imgs)]. *)
Definition run_many_pool (cpus : positive) (self : BaseMultiModalModel)
    (tasks imgs : list string) : res pool :=
  match run_many_executor cpus self with
  | Ret n => Ret (submitted n (length (zip tasks imgs)))
  | Raise e => Raise e
  end.

(** The pool of [run_batch] once every pair has been submitted. *)
Definition run_batch_pool (cpus : positive) (self : BaseMultiModalModel)
    (tasks_images : list (string * string)) : res pool :=
  match run_batch_executor cpus self with
  | Ret n => Ret (submitted n (length tasks_images))
  | Raise e => Raise e
  end.

(** The pool of [run_batch_async] once every pair has been handed to
    it. *)
Definition run_batch_async_pool (cpus : positive) (self : BaseMultiModalModel)
    (tasks_images : list (string * string)) : res pool :=
  match run_batch_async_executor cpus self with
  | Ret n => Ret (submitted n (length tasks_images))
  | Raise e => Raise e
  end.

End Pool.

(** ** Concrete collaborators, used to run the model *)

(** A model call that answers with its task and never touches the world. *)
Definition echo_run (task img : string) (w : unit) : unit * res value :=
  (w, Ret (VStr task)).

(** A model call that counts the calls made so far and raises on the
    calls whose number (from 0) is in [bad]. *)
Definition flaky_run (bad : list nat) (task img : string) (w : nat)
    : nat * res value :=
  (S w, if bool_decide (w ∈ bad) then Raise (Exception "boom")
        else Ret (VStr task)).

Definition sample_pairs : list (string * string) :=
  [("describe", "cat.png"); ("count", "dogs.png")].

Definition five_pairs : list (string * string) :=
  [("t0", "i0"); ("t1", "i1"); ("t2", "i2"); ("t3", "i3"); ("t4", "i4")].

(** A model call that follows a script: the call with number [w] (from
    0) ends as the script says; past the end of the script it answers
    with its task. *)
Definition scripted_run (script : list (res value)) (task img : string)
    (w : nat) : nat * res value :=
  (S w, default (Ret (VStr task)) (script !! w)).

(** ** The rest of the class *)

(** [run] as the class itself defines it: its body is [pass], so it
    returns [None] and touches nothing. *)
Definition BaseMultiModalModel_run {World : Type} (task img : string)
    (w : World) : World * res value :=
  (w, Ret VNone).

(** The results that the loop [for result in results: print(result)] of
    [run_many] reaches: those before the first call that raised. *)
Fixpoint returned_before_raise (results : list (res value)) : list value :=
  match results with
  | Ret v :: rest => v :: returned_before_raise rest
  | _ => []
  end.

(** ** encode_img

    [base64.b64encode] of the standard library: the standard alphabet of
    RFC 4648, no line breaks, [=] as padding.  Three bytes make one number
    of 24 bits, which is written as four characters of six bits each; a
    last group of one or two bytes is filled with zero bytes and the
    characters that hold nothing of the data are replaced by the
    padding. *)
Definition b64_alphabet : list Ascii.ascii :=
  String.list_ascii_of_string
    "ABCDEFGHIJKLMNOPQRSTUVWXYZabcdefghijklmnopqrstuvwxyz0123456789+/".

Definition b64_pad : Ascii.ascii := "="%char.

Definition b64_char (n : N) : Ascii.ascii := nth (N.to_nat n) b64_alphabet b64_pad.

Definition b64_group (a b c : Byte.byte) : N :=
  (Byte.to_N a * 65536 + Byte.to_N b * 256 + Byte.to_N c)%N.

Definition b64_quad (n : N) : list Ascii.ascii :=
  [b64_char (n / 262144); b64_char (n / 4096 mod 64);
   b64_char (n / 64 mod 64); b64_char (n mod 64)]%N.

Fixpoint b64encode (data : list Byte.byte) : list Ascii.ascii :=
  match data with
  | [] => []
  | [a] => take 2 (b64_quad (b64_group a Byte.x00 Byte.x00))
             ++ [b64_pad; b64_pad]
  | [a; b] => take 3 (b64_quad (b64_group a b Byte.x00)) ++ [b64_pad]
  | a :: b :: c :: rest => b64_quad (b64_group a b c) ++ b64encode rest
  end.

(** [with open(img, "rb") as image_file:
       return base64.b64encode(image_file.read()).decode("utf-8")]

    [read_file] is the file system: the bytes of the file at a path, or
    the exception that opening or reading it raises.  The characters of
    the encoding are ASCII, so that [.decode("utf-8")] gives the string
    with the same characters. *)
Definition encode_img (read_file : string -> res (list Byte.byte)) (img : string)
    : res string :=
  match read_file img with
  | Ret data => Ret (String.string_of_list_ascii (b64encode data))
  | Raise e => Raise e
  end.

(** A file system with one file. *)
Definition one_file (path : string) (data : list Byte.byte) (img : string)
    : res (list Byte.byte) :=
  if bool_decide (img = path) then Ret data
  else Raise (Exception "No such file or directory").

(** * Properties *)

(** Building a pool without a size cannot fail, and the pool has at least
    five workers. *)
Lemma default_pool_size cpus :
  ThreadPoolExecutor cpus None = Ret (default_max_workers cpus) /\
  5 <= default_max_workers cpus.
Proof.
  unfold ThreadPoolExecutor, default_max_workers.
  destruct (Z.min 32 (Z.pos cpus + 4) <=? 0) eqn:Hn;
    [apply Z.leb_le in Hn; lia|].
  split; [reflexivity|lia].
Qed.

Section BatchRunnerFacts.

Context {World : Type}.
Variable run : string -> string -> World -> World * res value.
Variable cpus : positive.

Implicit Types (s : state (World := World)) (w : World) (tr : list event).

Lemma calls_app tr1 tr2 : calls (tr1 ++ tr2) = calls tr1 ++ calls tr2.
Proof.
  induction tr1 as [|ev tr1 IH]; [done|].
  destruct ev; simpl; by rewrite ?IH.
Qed.

Lemma calls_batch_events pairs : calls (batch_events pairs) = pairs.
Proof.
  induction pairs as [|[task img] pairs IH]; [done|].
  simpl. by rewrite IH.
Qed.

Lemma calls_failed_attempts evs msgs :
  calls (failed_attempts evs msgs) =
    concat (replicate (length msgs) (calls evs)).
Proof.
  induction msgs as [|msg msgs IH]; [done|].
  unfold failed_attempts in *. simpl.
  rewrite !calls_app, IH. simpl. by rewrite app_nil_r.
Qed.

(** **** One turn of the loop *)

Lemma retry_loop_ret n body s s' v :
  body s = (s', Ret v) ->
  retry_loop (S n) body s = (s', Ret v).
Proof. intros Hb. simpl. unfold try_except. by rewrite Hb. Qed.

Lemma retry_loop_raise n body s s' msg :
  body s = (s', failure msg) ->
  retry_loop (S n) body s =
    retry_loop n body
      (State (world s') (trace s' ++ [EvPrintError (Exception msg)])).
Proof. intros Hb. simpl. unfold try_except. by rewrite Hb. Qed.

(** An exception that is not an [Exception] is not retried: it leaves
    the loop. *)
Lemma retry_loop_pass n body s s' msg :
  body s = (s', Raise (BaseException msg)) ->
  retry_loop (S n) body s = (s', Raise (BaseException msg)).
Proof. intros Hb. simpl. unfold try_except. by rewrite Hb. Qed.

(** **** The events of the two bodies *)

Lemma call_run_emits task img : emits (call_run run task img) [EvRun task img].
Proof.
  intros w tr. unfold call_run. simpl.
  by destruct (run task img w) as [w' o].
Qed.

(** Consecutive executions of [self.run(task, img)] are consecutive
    calls of [run], each in the world the one before left. *)
Lemma outcomes_call_run task img n w :
  outcomes (call_run run task img) (S n) w =
    (let '(w1, o) := run task img w in
     let '(os, w') := outcomes (call_run run task img) n w1 in
     (o :: os, w')).
Proof.
  simpl. unfold call_run. simpl. by destruct (run task img w) as [w1 o].
Qed.

Lemma submit_all_frame pairs w tr :
  submit_all run pairs (State w tr) =
    (State (world (submit_all run pairs (State w [])).1)
           (tr ++ batch_events pairs),
     (submit_all run pairs (State w [])).2).
Proof.
  revert w tr. induction pairs as [|[task img] pairs IH]; intros w tr.
  - simpl. by rewrite app_nil_r.
  - simpl. unfold call_run. simpl.
    destruct (run task img w) as [w1 o].
    rewrite (IH w1 (tr ++ [EvRun task img])), (IH w1 [EvRun task img]).
    destruct (submit_all run pairs (State w1 [])) as [s2 os]. simpl.
    by rewrite <- app_assoc.
Qed.

Lemma run_batch_unfold self pairs s :
  run_batch run cpus self pairs s =
    match collect (submit_all run pairs s).2 with
    | Ret results => ((submit_all run pairs s).1, Ret (VList results))
    | Raise e => ((submit_all run pairs s).1, Raise e)
    end.
Proof.
  unfold run_batch, run_batch_executor.
  rewrite (proj1 (default_pool_size cpus)).
  by destruct (submit_all run pairs s).
Qed.

Lemma run_batch_emits self pairs :
  emits (run_batch run cpus self pairs) (batch_events pairs).
Proof.
  intros w tr. rewrite !run_batch_unfold.
  rewrite (submit_all_frame pairs w tr), (submit_all_frame pairs w []).
  destruct (submit_all run pairs (State w [])) as [s' futures]. simpl.
  by destruct (collect futures).
Qed.

(** **** The loop against the outcomes of its body *)

(** The body fails with the errors [msgs] and then returns [v], within
    the budget: the loop returns [v] after [length msgs + 1] executions
    of the body. *)
Lemma retry_loop_succeeds body evs :
  emits body evs ->
  forall msgs n w tr v w',
    (length msgs < n)%nat ->
    outcomes body (S (length msgs)) w = ((failure <$> msgs) ++ [Ret v], w') ->
    retry_loop n body (State w tr) =
      (State w' (tr ++ failed_attempts evs msgs ++ evs), Ret v).
Proof.
  intros Hev. induction msgs as [|msg msgs IH]; intros n w tr v w' Hn Hout.
  - destruct n as [|n]; [simpl in Hn; lia|].
    simpl in Hout.
    destruct (body (State w [])) as [s1 o] eqn:Hb.
    injection Hout as Ho Hw. subst o w'.
    apply retry_loop_ret. rewrite Hev, Hb. done.
  - destruct n as [|n]; [simpl in Hn; lia|].
    change (outcomes body (S (length (msg :: msgs))) w)
      with (let '(s1, o) := body (State w []) in
            let '(os, w') := outcomes body (S (length msgs)) (world s1) in
            (o :: os, w')) in Hout.
    destruct (body (State w [])) as [s1 o] eqn:Hb.
    destruct (outcomes body (S (length msgs)) (world s1)) as [os w2] eqn:Ho.
    injection Hout as Ho' Hos Hw. subst o os w'.
    rewrite (retry_loop_raise n body (State w tr)
               (State (world s1) (tr ++ evs)) msg)
      by (rewrite Hev, Hb; done).
    simpl in Hn. simpl world. simpl trace.
    rewrite (IH n (world s1) _ v w2) by (done || lia).
    unfold failed_attempts. simpl. by rewrite <- !app_assoc.
Qed.

(** The body fails on each of the [n] executions the budget allows: the
    loop falls through and returns [None]. *)
Lemma retry_loop_exhausted body evs :
  emits body evs ->
  forall msgs w tr w',
    outcomes body (length msgs) w = (failure <$> msgs, w') ->
    retry_loop (length msgs) body (State w tr) =
      (State w' (tr ++ failed_attempts evs msgs), Ret VNone).
Proof.
  intros Hev. induction msgs as [|msg msgs IH]; intros w tr w' Hout.
  - simpl in *. injection Hout as Hw. subst w'. unfold ret.
    by rewrite app_nil_r.
  - simpl in Hout.
    destruct (body (State w [])) as [s1 o] eqn:Hb.
    destruct (outcomes body (length msgs) (world s1)) as [os w2] eqn:Ho.
    injection Hout as Ho' Hos Hw. subst o os w'.
    simpl length.
    rewrite (retry_loop_raise _ body (State w tr)
               (State (world s1) (tr ++ evs)) msg)
      by (rewrite Hev, Hb; done).
    simpl world. simpl trace.
    rewrite (IH (world s1) _ w2) by done.
    unfold failed_attempts. simpl. by rewrite <- !app_assoc.
Qed.

(** Whatever the body does, the loop executes it at most [n] times, and
    nothing but whole executions of the body and the error lines reach
    the trace. *)
Lemma retry_loop_bound body evs :
  emits body evs ->
  forall n s,
    exists a : nat,
      (a <= n)%nat /\
      calls (trace (retry_loop n body s).1) =
        calls (trace s) ++ concat (replicate a (calls evs)).
Proof.
  intros Hev. induction n as [|n IH]; intros [w tr].
  - exists 0%nat. simpl. by rewrite app_nil_r.
  - destruct (body (State w [])) as [s1 [v|[msg|msg]]] eqn:Hb.
    + exists 1%nat. split; [lia|].
      rewrite (retry_loop_ret n body (State w tr)
                 (State (world s1) (tr ++ evs)) v)
        by (rewrite Hev, Hb; done).
      simpl. by rewrite calls_app, app_nil_r.
    + rewrite (retry_loop_raise n body (State w tr)
                 (State (world s1) (tr ++ evs)) msg)
        by (rewrite Hev, Hb; done).
      simpl world. simpl trace.
      destruct (IH (State (world s1)
                      ((tr ++ evs) ++ [EvPrintError (Exception msg)])))
        as (a & Ha & Hc).
      exists (S a). split; [lia|].
      rewrite Hc. simpl. rewrite !calls_app. simpl.
      by rewrite app_nil_r, <- app_assoc.
    + exists 1%nat. split; [lia|].
      rewrite (retry_loop_pass n body (State w tr)
                 (State (world s1) (tr ++ evs)) msg)
        by (rewrite Hev, Hb; done).
      simpl. by rewrite calls_app, app_nil_r.
Qed.

Lemma concat_replicate_singleton {A} (a : nat) (x : A) :
  concat (replicate a [x]) = replicate a x.
Proof. induction a as [|a IH]; [done|]. simpl. by rewrite IH. Qed.

Lemma range_len_bound (k : Z) (a : nat) :
  (a <= range_len k)%nat -> Z.of_nat a <= Z.max 0 k.
Proof. unfold range_len. lia. Qed.

Lemma range_len_lt (k : Z) (a : nat) :
  Z.of_nat a < k -> (a < range_len k)%nat.
Proof. unfold range_len. lia. Qed.

(** **** The futures of a batch *)

Lemma submit_all_length pairs s :
  length (submit_all run pairs s).2 = length pairs.
Proof.
  revert s. induction pairs as [|[task img] pairs IH]; intros s; [done|].
  simpl. destruct (call_run run task img s) as [s1 o].
  specialize (IH s1).
  destruct (submit_all run pairs s1) as [s2 os]. simpl in *. by rewrite IH.
Qed.


Lemma collect_ret futures results :
  collect futures = Ret results <-> futures = Ret <$> results.
Proof.
  revert results. induction futures as [|[v|e] futures IH]; intros results.
  - simpl. split.
    + intros [= <-]. done.
    + destruct results; [done|]. discriminate.
  - simpl. destruct (collect futures) as [vs|e] eqn:Hc.
    + split.
      * intros [= <-]. simpl. f_equal. by apply IH.
      * destruct results as [|v' results]; [discriminate|].
        intros [= -> Hf]. apply IH in Hf. by injection Hf as ->.
    + split; [discriminate|].
      destruct results as [|v' results]; [discriminate|].
      intros [= -> Hf]. apply IH in Hf. discriminate.
  - simpl. split; [discriminate|].
    destruct results; discriminate.
Qed.


(** The first future that holds an exception decides the collection. *)
Lemma collect_raise futures i e :
  futures !! i = Some (Raise e) ->
  (forall j o, (j < i)%nat -> futures !! j = Some o -> is_ret o = true) ->
  collect futures = Raise e.
Proof.
  revert i. induction futures as [|o futures IH]; intros i Hi Hbefore.
  - done.
  - destruct i as [|i].
    + injection Hi as ->. done.
    + pose proof (Hbefore 0%nat o ltac:(lia) eq_refl) as Ho.
      destruct o as [v|e']; [|discriminate]. simpl.
      rewrite (IH i); [done|exact Hi|].
      intros j o' Hj Hl. apply (Hbefore (S j) o'); [lia|exact Hl].
Qed.

Lemma run_batch_ret_inv self pairs s s' v :
  run_batch run cpus self pairs s = (s', Ret v) ->
  exists results,
    v = VList results /\ length results = length pairs /\
    (submit_all run pairs s).2 = Ret <$> results.
Proof.
  rewrite run_batch_unfold. intros Hrb.
  pose proof (submit_all_length pairs s) as Hlen.
  destruct (submit_all run pairs s) as [s1 futures]. simpl in *.
  destruct (collect futures) as [results|e] eqn:Hc; [|discriminate].
  injection Hrb as _ <-. apply collect_ret in Hc. subst futures.
  exists results. rewrite length_fmap in Hlen. done.
Qed.

(** *** run_batch *)


(** C2: when [run] is a function [f] of the task and the image, with no
    effect on the world and no exception, the result of [run_batch] at
    every index [i] is [f] applied to the pair at index [i]. *)
Theorem run_batch_pure self (f : string -> string -> value) pairs s :
  (forall task img w, run task img w = (w, Ret (f task img))) ->
  exists results,
    run_batch run cpus self pairs s =
      (State (world s) (trace s ++ batch_events pairs), Ret (VList results)) /\
    length results = length pairs /\
    forall i task img,
      pairs !! i = Some (task, img) -> results !! i = Some (f task img).
Proof.
  intros Hpure.
  assert (Hsub : forall ps s0,
             submit_all run ps s0 =
               (State (world s0) (trace s0 ++ batch_events ps),
                (fun p => Ret (f p.1 p.2)) <$> ps)).
  { induction ps as [|[task img] ps IH]; intros [w tr].
    - simpl. by rewrite app_nil_r.
    - simpl. unfold call_run. simpl. rewrite Hpure, IH. simpl.
      by rewrite <- app_assoc. }
  exists ((fun p => f p.1 p.2) <$> pairs). split; [|split].
  - rewrite run_batch_unfold, Hsub. cbn [fst snd].
    replace ((fun p => Ret (f p.1 p.2)) <$> pairs)
      with (Ret <$> ((fun p => f p.1 p.2) <$> pairs))
      by (by rewrite <- list_fmap_compose).
    by rewrite (proj2 (collect_ret _ _) eq_refl).
  - by rewrite length_fmap.
  - intros i task img Hi. by rewrite list_lookup_fmap, Hi.
Qed.

(** C6: when [run] raises for some pair, [run_batch] returns no list:
    the exception held by the future of the smallest raising index
    leaves [run_batch] as it is, every submitted call having been made
    and nothing having been caught or printed. *)
Theorem run_batch_fail_fast self pairs s i e :
  (submit_all run pairs s).2 !! i = Some (Raise e) ->
  (forall j o, (j < i)%nat ->
               (submit_all run pairs s).2 !! j = Some o -> is_ret o = true) ->
  run_batch run cpus self pairs s = ((submit_all run pairs s).1, Raise e) /\
  (forall results, (run_batch run cpus self pairs s).2 <> Ret results) /\
  trace (run_batch run cpus self pairs s).1 = trace s ++ batch_events pairs.
Proof.
  intros Hi Hbefore.
  pose proof (collect_raise _ i e Hi Hbefore) as Hc.
  assert (Hrb : run_batch run cpus self pairs s =
                  ((submit_all run pairs s).1, Raise e)).
  { by rewrite run_batch_unfold, Hc. }
  split; [exact Hrb|]. rewrite Hrb. split; [done|]. simpl.
  destruct s as [w tr]. by rewrite submit_all_frame.
Qed.

(** *** run_with_retries *)

(** C3: [run_with_retries] calls [run] at most [retries] times; when
    [run] fails on the first [k] attempts and returns on the next one,
    an attempt the budget still covers, [run_with_retries] calls [run]
    exactly [k + 1] times and returns that result, and the only thing
    that happens between two attempts is the printing of the error. *)
Theorem run_with_retries_attempts self task img :
  (forall s, exists a : nat,
     Z.of_nat a <= Z.max 0 (retries self) /\
     calls (trace (run_with_retries run self task img s).1) =
       calls (trace s) ++ replicate a (task, img)) /\
  (forall s msgs v w',
     Z.of_nat (length msgs) < retries self ->
     outcomes (call_run run task img) (S (length msgs)) (world s) =
       ((failure <$> msgs) ++ [Ret v], w') ->
     run_with_retries run self task img s =
       (State w' (trace s ++ failed_attempts [EvRun task img] msgs
                          ++ [EvRun task img]),
        Ret v) /\
     calls (trace (run_with_retries run self task img s).1) =
       calls (trace s) ++ replicate (S (length msgs)) (task, img)).
Proof.
  split.
  - intros s.
    destruct (retry_loop_bound _ _ (call_run_emits task img)
                (range_len (retries self)) s) as (a & Ha & Hc).
    exists a. split; [by apply range_len_bound|].
    unfold run_with_retries. rewrite Hc. simpl calls.
    by rewrite concat_replicate_singleton.
  - intros [w tr] msgs v w' Hk Hout.
    assert (Heq : run_with_retries run self task img (State w tr) =
              (State w' (tr ++ failed_attempts [EvRun task img] msgs
                            ++ [EvRun task img]), Ret v)).
    { unfold run_with_retries.
      apply (retry_loop_succeeds _ _ (call_run_emits task img));
        [by apply range_len_lt|exact Hout]. }
    split; [exact Heq|]. rewrite Heq. simpl.
    rewrite !calls_app, calls_failed_attempts. simpl.
    rewrite concat_replicate_singleton.
    by rewrite <- replicate_S_end.
Qed.

(** C4: when [run] fails on every attempt of the budget,
    [run_with_retries] raises nothing: each error is caught, its line is
    printed, and after the last attempt the function returns [None], not
    a result of [run]. *)
Theorem run_with_retries_exhausted self task img s msgs w' :
  length msgs = range_len (retries self) ->
  outcomes (call_run run task img) (length msgs) (world s) =
    (failure <$> msgs, w') ->
  run_with_retries run self task img s =
    (State w' (trace s ++ failed_attempts [EvRun task img] msgs), Ret VNone).
Proof.
  intros Hlen Hout. unfold run_with_retries. rewrite <- Hlen.
  destruct s as [w tr].
  by apply (retry_loop_exhausted _ _ (call_run_emits task img)).
Qed.

(** The handler is for [Exception]: an exception outside it, such as
    [KeyboardInterrupt], is not an error to retry and leaves
    [run_with_retries] at the attempt that raised it. *)
Lemma run_with_retries_pass self task img s w' msg :
  0 < retries self ->
  run task img (world s) = (w', Raise (BaseException msg)) ->
  run_with_retries run self task img s =
    (State w' (trace s ++ [EvRun task img]), Raise (BaseException msg)).
Proof.
  intros Hpos Hrun. unfold run_with_retries.
  destruct (range_len (retries self)) as [|n] eqn:Hn;
    [unfold range_len in Hn; lia|].
  apply retry_loop_pass. unfold call_run. by rewrite Hrun.
Qed.

(** C10: with a retry budget of zero or less the loop body runs zero
    times: [run_with_retries] returns [None] without calling [run], and
    [run_batch_with_retries] returns [None] without calling
    [run_batch]; the state is the one they were called in. *)
Theorem no_budget_no_attempt self :
  retries self <= 0 ->
  range_len (retries self) = 0%nat /\
  (forall task img s, run_with_retries run self task img s = (s, Ret VNone)) /\
  (forall pairs s,
     run_batch_with_retries run cpus self pairs s = (s, Ret VNone)).
Proof.
  intros Hle.
  assert (H0 : range_len (retries self) = 0%nat) by (unfold range_len; lia).
  unfold run_with_retries, run_batch_with_retries. rewrite H0. done.
Qed.

(** *** run_batch_with_retries *)

(** C7: [run_batch_with_retries] retries the whole batch: it makes at
    most [retries] attempts, each of which submits every pair again;
    after a failed attempt the next one submits all pairs; with
    [retries = 3], two failing attempts and a third that returns, the
    result is the full list of the third attempt, after exactly three
    submissions of every pair. *)
Theorem run_batch_with_retries_whole_batch self pairs :
  (forall s, exists a : nat,
     Z.of_nat a <= Z.max 0 (retries self) /\
     calls (trace (run_batch_with_retries run cpus self pairs s).1) =
       calls (trace s) ++ concat (replicate a pairs)) /\
  (forall s msgs v w',
     Z.of_nat (length msgs) < retries self ->
     outcomes (run_batch run cpus self pairs) (S (length msgs)) (world s) =
       ((failure <$> msgs) ++ [Ret v], w') ->
     run_batch_with_retries run cpus self pairs s =
       (State w' (trace s ++ failed_attempts (batch_events pairs) msgs
                          ++ batch_events pairs),
        Ret v)) /\
  (retries self = 3 ->
   forall s msg1 msg2 v w',
     outcomes (run_batch run cpus self pairs) 3 (world s) =
       ([failure msg1; failure msg2; Ret v], w') ->
     run_batch_with_retries run cpus self pairs s =
       (State w' (trace s
                  ++ batch_events pairs ++ [EvPrintError (Exception msg1)]
                  ++ batch_events pairs ++ [EvPrintError (Exception msg2)]
                  ++ batch_events pairs),
        Ret v) /\
     calls (trace (run_batch_with_retries run cpus self pairs s).1) =
       calls (trace s) ++ pairs ++ pairs ++ pairs /\
     exists results,
       v = VList results /\ length results = length pairs /\
       (submit_all run pairs
          (State (outcomes (run_batch run cpus self pairs) 2 (world s)).2
                 [])).2 =
         Ret <$> results).
Proof.
  split; [|split].
  - intros s.
    destruct (retry_loop_bound _ _ (run_batch_emits self pairs)
                (range_len (retries self)) s) as (a & Ha & Hc).
    exists a. split; [by apply range_len_bound|].
    unfold run_batch_with_retries. rewrite Hc.
    by rewrite calls_batch_events.
  - intros [w tr] msgs v w' Hk Hout. unfold run_batch_with_retries.
    apply (retry_loop_succeeds _ _ (run_batch_emits self pairs));
      [by apply range_len_lt|exact Hout].
  - intros H3 [w tr] msg1 msg2 v w' Hout.
    assert (Heq : run_batch_with_retries run cpus self pairs (State w tr) =
              (State w' (tr
                  ++ batch_events pairs ++ [EvPrintError (Exception msg1)]
                  ++ batch_events pairs ++ [EvPrintError (Exception msg2)]
                  ++ batch_events pairs), Ret v)).
    { unfold run_batch_with_retries.
      rewrite (retry_loop_succeeds _ _ (run_batch_emits self pairs)
                 [msg1; msg2] (range_len (retries self)) w tr v w').
      - unfold failed_attempts. simpl. by rewrite <- !app_assoc.
      - rewrite H3. simpl. unfold range_len. lia.
      - exact Hout. }
    split; [exact Heq|]. rewrite Heq. split.
    + simpl. rewrite !calls_app, !calls_batch_events. simpl.
      rewrite calls_app. simpl. by rewrite !calls_batch_events.
    + cbn [outcomes world] in Hout |- *.
      destruct (run_batch run cpus self pairs (State w [])) as [s1 o1].
      destruct (run_batch run cpus self pairs (State (world s1) []))
        as [s2 o2].
      cbn [snd].
      destruct (run_batch run cpus self pairs (State (world s2) []))
        as [s3 o3] eqn:Hb3.
      injection Hout as Ho1 Ho2 Ho3 Hw. subst o1 o2 o3 w'.
      by apply (run_batch_ret_inv self pairs (State (world s2) []) s3).
Qed.

(** *** run_many *)

Lemma print_results_trace results s :
  world (print_results results s).1 = world s /\
  calls (trace (print_results results s).1) = calls (trace s).
Proof.
  revert s. induction results as [|[v|e] results IH]; intros s; [done| |done].
  simpl. unfold bind, emit.
  destruct (IH (State (world s) (trace s ++ [EvPrint v]))) as [Hw Hc].
  rewrite Hw, Hc. simpl. rewrite calls_app. simpl. by rewrite app_nil_r.
Qed.

Lemma print_results_all_ret results s :
  forallb is_ret results = true ->
  (print_results results s).2 = Ret VNone.
Proof.
  revert s. induction results as [|[v|e] results IH]; intros s Hall;
    [done| |discriminate].
  simpl. unfold bind, emit. by apply IH.
Qed.

Lemma print_results_raise results s e :
  (print_results results s).2 = Raise e -> Raise e ∈ results.
Proof.
  revert s. induction results as [|[v|e'] results IH]; intros s.
  - discriminate.
  - simpl. unfold bind, emit. intros Hr. right. by eapply IH.
  - simpl. intros [= ->]. left.
Qed.

(** What leaves [run_many] once the results are printed: the exception
    of the first call that raised, and [None] when there is none. *)
Lemma print_results_outcome results s :
  (print_results results s).2 =
    match collect results with
    | Ret _ => Ret VNone
    | Raise e => Raise e
    end.
Proof.
  revert s. induction results as [|[v|e] results IH]; intros s; [done| |done].
  simpl. unfold bind, emit. rewrite IH. by destruct (collect results).
Qed.

(** C5, amended: [run_many] does not compare the lengths of its two
    lists.  With lists of different lengths it does what it does on
    their common prefix: it calls [run] on the pairs of
    [zip(tasks, imgs)], one per index below the smaller length, and
    leaves the surplus alone.  An exception that leaves [run_many] is
    the pool's refusal of its size or one that [run] raised, and both do
    leave it: the refusal before any call, the exception of the first
    call that raised after the calls; when the pool is built and no call
    raises, [run_many] returns [None]. *)
Theorem run_many_zip self tasks imgs s :
  length tasks <> length imgs ->
  run_many run cpus self tasks imgs s =
    run_many run cpus self
      (take (length tasks `min` length imgs) tasks)
      (take (length tasks `min` length imgs) imgs) s /\
  (forall e,
     (run_many run cpus self tasks imgs s).2 = Raise e ->
     run_many_executor cpus self = Raise e \/
     Raise e ∈ (submit_all run (zip tasks imgs) s).2) /\
  (forall n,
     run_many_executor cpus self = Ret n ->
     calls (trace (run_many run cpus self tasks imgs s).1) =
       calls (trace s) ++ zip tasks imgs /\
     length (zip tasks imgs) = (length tasks `min` length imgs)%nat /\
     (forallb is_ret (submit_all run (zip tasks imgs) s).2 = true ->
      (run_many run cpus self tasks imgs s).2 = Ret VNone) /\
     (run_many run cpus self tasks imgs s).2 =
       match collect (submit_all run (zip tasks imgs) s).2 with
       | Ret _ => Ret VNone
       | Raise e => Raise e
       end /\
     (forall i e,
        (submit_all run (zip tasks imgs) s).2 !! i = Some (Raise e) ->
        (forall j o, (j < i)%nat ->
                     (submit_all run (zip tasks imgs) s).2 !! j = Some o ->
                     is_ret o = true) ->
        (run_many run cpus self tasks imgs s).2 = Raise e)) /\
  (forall e,
     run_many_executor cpus self = Raise e ->
     run_many run cpus self tasks imgs s = (s, Raise e)).
Proof.
  intros _. split; [|split; [|split]]; [| | |intros e He; unfold run_many;
                                               by rewrite He].
  - unfold run_many.
    by rewrite (zip_with_take_both' _ _ _ tasks imgs) by lia.
  - intros e. unfold run_many.
    destruct (run_many_executor cpus self) as [n|e0].
    + destruct (submit_all run (zip tasks imgs) s) as [s' results].
      intros Hr. right. by eapply print_results_raise.
    + simpl. intros [= ->]. by left.
  - intros n Hpool. unfold run_many. rewrite Hpool.
    pose proof (submit_all_frame (zip tasks imgs) (world s) (trace s)) as Hf.
    destruct s as [w tr]. simpl in Hf.
    destruct (submit_all run (zip tasks imgs) (State w tr)) as [s' results].
    injection Hf as Hs' Hres. split; [|split; [|split; [|split]]].
    + destruct (print_results_trace results s') as [_ ->].
      rewrite Hs'. simpl. by rewrite calls_app, calls_batch_events.
    + apply length_zip.
    + simpl. apply print_results_all_ret.
    + simpl. apply print_results_outcome.
    + simpl. intros i e Hi Hbefore.
      by rewrite print_results_outcome, (collect_raise results i e).
Qed.

End BatchRunnerFacts.

(** ** The model at work *)


Lemma run_batch_pure_witness :
  exists results,
    run_batch echo_run 1 (__init__ None (Some 10) 3) sample_pairs (State tt []) =
      (State tt (batch_events sample_pairs), Ret (VList results)) /\
    results !! 1%nat = Some (VStr "count").
Proof.
  destruct (run_batch_pure echo_run 1 (__init__ None (Some 10) 3)
              (fun task _ => VStr task) sample_pairs
              (State tt []) (fun _ _ _ => eq_refl))
    as (results & Hrun & _ & Hidx).
  exists results. split; [exact Hrun|].
  exact (Hidx 1%nat "count" "dogs.png" eq_refl).
Defined.

Lemma run_batch_fail_fast_witness :
  run_batch (flaky_run [1; 2]%nat) 1 (__init__ None (Some 10) 3) five_pairs (State 0%nat []) =
    (State 5%nat (batch_events five_pairs), Raise (Exception "boom")).
Proof.
  destruct (run_batch_fail_fast (flaky_run [1; 2]%nat) 1
              (__init__ None (Some 10) 3) five_pairs
              (State 0%nat []) 1%nat (Exception "boom")) as (Hrun & _ & _).
  - reflexivity.
  - intros j o Hj. destruct j as [|j]; [|lia]. by intros [= <-].
  - exact Hrun.
Defined.

Lemma run_with_retries_attempts_witness :
  run_with_retries (flaky_run [0; 1]%nat) (__init__ None (Some 10) 3) "describe" "cat.png"
    (State 0%nat []) =
    (State 3%nat
       [EvRun "describe" "cat.png"; EvPrintError (Exception "boom");
        EvRun "describe" "cat.png"; EvPrintError (Exception "boom");
        EvRun "describe" "cat.png"],
     Ret (VStr "describe")).
Proof.
  destruct (proj2 (run_with_retries_attempts (flaky_run [0; 1]%nat) (__init__ None (Some 10) 3)
                     "describe" "cat.png")
              (State 0%nat []) ["boom"; "boom"]
              (VStr "describe") 3%nat) as [Hrun _].
  - simpl. lia.
  - reflexivity.
  - exact Hrun.
Defined.

Lemma run_with_retries_exhausted_witness :
  run_with_retries (flaky_run [0; 1; 2]%nat) (__init__ None (Some 10) 3) "describe" "cat.png"
    (State 0%nat []) =
    (State 3%nat
       [EvRun "describe" "cat.png"; EvPrintError (Exception "boom");
        EvRun "describe" "cat.png"; EvPrintError (Exception "boom");
        EvRun "describe" "cat.png"; EvPrintError (Exception "boom")],
     Ret VNone).
Proof.
  apply (run_with_retries_exhausted (flaky_run [0; 1; 2]%nat) (__init__ None (Some 10) 3)
           "describe" "cat.png" (State 0%nat [])
           ["boom"; "boom"; "boom"] 3%nat).
  - reflexivity.
  - reflexivity.
Defined.

Lemma no_budget_no_attempt_witness :
  run_with_retries echo_run (__init__ None (Some 10) 0) "describe" "cat.png"
    (State tt []) = (State tt [], Ret VNone) /\
  run_batch_with_retries echo_run 1 (__init__ None (Some 10) (-2)) sample_pairs
    (State tt []) = (State tt [], Ret VNone).
Proof.
  split.
  - destruct (no_budget_no_attempt echo_run 1 (__init__ None (Some 10) 0))
      as (_ & Hrun & _); [simpl; lia|]. apply Hrun.
  - destruct (no_budget_no_attempt echo_run 1 (__init__ None (Some 10) (-2)))
      as (_ & _ & Hbatch); [simpl; lia|]. apply Hbatch.
Defined.

Lemma run_batch_with_retries_whole_batch_witness :
  run_batch_with_retries (flaky_run [0; 3]%nat) 1 (__init__ None (Some 10) 3) sample_pairs
    (State 0%nat []) =
    (State 6%nat
       (batch_events sample_pairs ++ [EvPrintError (Exception "boom")] ++
        batch_events sample_pairs ++ [EvPrintError (Exception "boom")] ++
        batch_events sample_pairs),
     Ret (VList [VStr "describe"; VStr "count"])).
Proof.
  destruct (proj2 (proj2 (run_batch_with_retries_whole_batch
                            (flaky_run [0; 3]%nat) 1
                            (__init__ None (Some 10) 3) sample_pairs))
              eq_refl (State 0%nat []) "boom" "boom"
              (VList [VStr "describe"; VStr "count"]) 6%nat eq_refl)
    as (Hrun & _ & _).
  exact Hrun.
Defined.

Lemma run_many_zip_witness :
  run_many echo_run 1 (__init__ None (Some 10) 3) ["describe"; "count"] ["cat.png"]
    (State tt []) =
  run_many echo_run 1 (__init__ None (Some 10) 3) ["describe"] ["cat.png"] (State tt []).
Proof.
  destruct (run_many_zip echo_run 1 (__init__ None (Some 10) 3) ["describe"; "count"]
              ["cat.png"] (State tt [])) as (Hrun & _ & _).
  - simpl. lia.
  - exact Hrun.
Defined.

(** C5 as stated fails: two tasks and one image are accepted; [run] is
    called on the first pair, its result is printed, and [run_many]
    returns [None]. *)
Lemma run_many_shape_mismatch_unreported :
  length ["describe"; "count"] <> length ["cat.png"] /\
  run_many echo_run 1 (__init__ None (Some 10) 3) ["describe"; "count"] ["cat.png"]
    (State tt []) =
    (State tt [EvRun "describe" "cat.png"; EvPrint (VStr "describe")],
     Ret VNone) /\
  ~ (exists s' e,
       run_many echo_run 1 (__init__ None (Some 10) 3) ["describe"; "count"] ["cat.png"]
         (State tt []) = (s', Raise e)).
Proof.
  split; [simpl; lia|]. split; [reflexivity|].
  intros (s' & e & Hr). vm_compute in Hr. discriminate.
Qed.

(** ** Chat history *)

Section ChatHistoryFacts.

Variable iter_order : gset string -> list string.

Lemma clear_chat_history_empty (self : BaseMultiModalModel) :
  get_chat_history (clear_chat_history self) = [] /\
  get_chat_history_length (clear_chat_history self) = 0%nat /\
  retries (clear_chat_history self) = retries self /\
  max_workers (clear_chat_history self) = max_workers self.
Proof. done. Qed.

Lemma remove_dups_length_le (l : list string) :
  (length (remove_dups l) <= length l)%nat.
Proof.
  apply submseteq_length, NoDup_submseteq; [apply NoDup_remove_dups|].
  intros x. by rewrite elem_of_remove_dups.
Qed.

(** C9: the unique view lists the distinct elements of the chat
    history, each once, in the order the set happens to iterate;
    [unique_chat_history] and [get_unique_chat_history] are the same
    query; the unique length is the number of distinct elements, and so
    at most the length of the history. *)
Theorem unique_chat_history_distinct (self : BaseMultiModalModel) :
  (forall X : gset string, iter_order X ≡ₚ elements X) ->
  NoDup (get_unique_chat_history iter_order self) /\
  (forall x, x ∈ get_unique_chat_history iter_order self <->
             x ∈ chat_history self) /\
  unique_chat_history iter_order self =
    get_unique_chat_history iter_order self /\
  get_unique_chat_history iter_order self ≡ₚ remove_dups (chat_history self) /\
  get_unique_chat_history_length iter_order self =
    length (remove_dups (chat_history self)) /\
  (get_unique_chat_history_length iter_order self <=
     get_chat_history_length self)%nat.
Proof.
  intros Hiter.
  unfold get_unique_chat_history, unique_chat_history,
    get_unique_chat_history_length, get_chat_history_length.
  set (l := chat_history self).
  assert (Hnd : NoDup (iter_order (list_to_set l))).
  { rewrite Hiter. apply NoDup_elements. }
  assert (Hin : forall x, x ∈ iter_order (list_to_set l) <-> x ∈ l).
  { intros x. by rewrite Hiter, elem_of_elements, elem_of_list_to_set. }
  assert (Hperm : iter_order (list_to_set l) ≡ₚ remove_dups l).
  { apply NoDup_Permutation; [done|apply NoDup_remove_dups|].
    intros x. by rewrite Hin, elem_of_remove_dups. }
  repeat split; try done.
  - by apply Hin.
  - by apply Hin.
  - by rewrite Hperm.
  - rewrite Hperm. apply remove_dups_length_le.
Qed.

End ChatHistoryFacts.

Lemma unique_chat_history_distinct_witness :
  get_unique_chat_history_length elements
    (set_chat_history ["hi"; "describe"; "hi"] (__init__ None (Some 10) 3)) = 2%nat.
Proof.
  destruct (unique_chat_history_distinct elements
              (set_chat_history ["hi"; "describe"; "hi"] (__init__ None (Some 10) 3))
              (fun X => reflexivity (elements X)))
    as (_ & _ & _ & _ & Hlen & _).
  rewrite Hlen. reflexivity.
Defined.

(** ** The worker pool *)

Lemma pool_step_bound a p p' :
  Pool.step a p = Some p' ->
  (Pool.running p <= Pool.workers p)%nat ->
  Pool.workers p' = Pool.workers p /\
  (Pool.running p' <= Pool.workers p')%nat.
Proof.
  destruct a; simpl.
  - destruct (0 <? Pool.queued p)%nat; simpl; [|discriminate].
    destruct (Pool.running p <? Pool.workers p)%nat eqn:Hfree; [|discriminate].
    intros [= <-] _. simpl. apply Nat.ltb_lt in Hfree. lia.
  - destruct (0 <? Pool.running p)%nat; [|discriminate].
    intros [= <-] Hle. simpl. lia.
Qed.

(** No schedule makes a pool execute more calls at once than it has
    workers. *)
Lemma pool_exec_bound acts p p' :
  Pool.exec acts p = Some p' ->
  (Pool.running p <= Pool.workers p)%nat ->
  Pool.workers p' = Pool.workers p /\
  (Pool.running p' <= Pool.workers p')%nat.
Proof.
  revert p. induction acts as [|a acts IH]; intros p; simpl.
  - intros [= <-]. done.
  - destruct (Pool.step a p) as [p1|] eqn:Hstep; [|discriminate].
    intros Hexec Hle.
    destruct (pool_step_bound a p p1 Hstep Hle) as [Hw1 Hr1].
    destruct (IH p1 Hexec Hr1) as [Hw Hr]. split; [congruence|done].
Qed.

(** X17: [run_many] sizes its pool with [self.max_workers]: whatever
    the schedule, at most that many calls of [run] execute at once. *)
Lemma run_many_pool_bounded cpus self tasks imgs n p acts p' :
  max_workers self = Some n ->
  Pool.run_many_pool cpus self tasks imgs = Ret p ->
  Pool.exec acts p = Some p' ->
  Z.of_nat (Pool.running p') <= n.
Proof.
  unfold Pool.run_many_pool, run_many_executor, ThreadPoolExecutor.
  intros -> Hpool Hexec.
  destruct (n <=? 0) eqn:Hn; [discriminate|]. injection Hpool as <-.
  apply Z.leb_gt in Hn.
  destruct (pool_exec_bound _ _ _ Hexec) as [Hw Hr]; [simpl; lia|].
  rewrite Hw in Hr. simpl in Hr. lia.
Qed.

(** Five waiting calls all start in a pool of five or more workers. *)
Lemma pool_five_start n :
  5 <= n ->
  exists p',
    Pool.exec (replicate 5 Pool.Start) (Pool.submitted n 5) = Some p' /\
    Pool.running p' = 5%nat.
Proof.
  intros Hn. unfold Pool.submitted.
  destruct (Z.to_nat n) as [|[|[|[|[|k]]]]] eqn:Hk; try lia.
  eexists. split; reflexivity.
Qed.

(** C8: the bound holds for [run_many] only.  [run_batch] and
    [run_batch_async] build their pools without a size, so whatever
    [self.max_workers] is, [2] included, their pools have at least five
    workers on every machine, and five submitted calls can all be
    executing at the same time. *)
Theorem run_batch_pool_ignores_max_workers :
  max_workers (__init__ None (Some 2) 3) = Some 2 /\
  forall cpus self,
    exists p p',
      Pool.run_batch_pool cpus self five_pairs = Ret p /\
      Pool.run_batch_async_pool cpus self five_pairs = Ret p /\
      Pool.exec (replicate 5 Pool.Start) p = Some p' /\
      Pool.running p' = 5%nat.
Proof.
  split; [reflexivity|]. intros cpus self.
  destruct (default_pool_size cpus) as [Hpool Hfive].
  destruct (pool_five_start _ Hfive) as (p' & Hexec & Hrun).
  exists (Pool.submitted (default_max_workers cpus) 5), p'.
  unfold Pool.run_batch_pool, Pool.run_batch_async_pool, run_batch_executor,
    run_batch_async_executor.
  rewrite Hpool. by repeat split.
Qed.

(** On a single-processor machine, with [max_workers = 2]. *)
Example run_batch_pool_five_running :
  Pool.run_batch_pool 1 (__init__ None (Some 2) 3) five_pairs =
    Ret (Pool.submitted 5 5) /\
  Pool.exec (replicate 5 Pool.Start) (Pool.submitted 5 5) =
    Some {| Pool.workers := 5; Pool.queued := 0; Pool.running := 5;
            Pool.finished := 0 |}.
Proof. split; reflexivity. Qed.

(** The same five calls in the pool of [run_many]: the third cannot
    start while two are executing. *)
Example run_many_pool_two_running :
  Pool.run_many_pool 1 (__init__ None (Some 2) 3)
    ["t0"; "t1"; "t2"; "t3"; "t4"] ["i0"; "i1"; "i2"; "i3"; "i4"] =
    Ret (Pool.submitted 2 5) /\
  Pool.exec [Pool.Start; Pool.Start] (Pool.submitted 2 5) =
    Some {| Pool.workers := 2; Pool.queued := 3; Pool.running := 2;
            Pool.finished := 0 |} /\
  Pool.exec [Pool.Start; Pool.Start; Pool.Start] (Pool.submitted 2 5) = None.
Proof. repeat split; reflexivity. Qed.

(** * More of the class *)

Section BatchRunnerMore.

Context {World : Type}.
Variable run : string -> string -> World -> World * res value.
Variable cpus : positive.

Implicit Types (s : state (World := World)) (w : World) (tr : list event).

(** ** run_batch *)

Lemma submit_all_app pairs1 pairs2 s :
  submit_all run (pairs1 ++ pairs2) s =
    (let '(s1, os1) := submit_all run pairs1 s in
     let '(s2, os2) := submit_all run pairs2 s1 in
     (s2, os1 ++ os2)).
Proof.
  revert s. induction pairs1 as [|[task img] pairs1 IH]; intros s.
  - simpl. by destruct (submit_all run pairs2 s).
  - simpl. destruct (call_run run task img s) as [s0 o].
    rewrite IH. destruct (submit_all run pairs1 s0) as [s1 os1].
    by destruct (submit_all run pairs2 s1) as [s2 os2].
Qed.

Lemma collect_app futures1 futures2 :
  collect (futures1 ++ futures2) =
    match collect futures1 with
    | Ret results1 =>
        match collect futures2 with
        | Ret results2 => Ret (results1 ++ results2)
        | Raise e => Raise e
        end
    | Raise e => Raise e
    end.
Proof.
  induction futures1 as [|[v|e] futures1 IH]; simpl.
  - by destruct (collect futures2).
  - rewrite IH. destruct (collect futures1); [|done].
    by destruct (collect futures2).
  - done.
Qed.

(** The converse of [collect_raise]: an exception that leaves the
    collection is held by a future, and the futures before it hold
    values. *)
Lemma collect_raise_inv futures e :
  collect futures = Raise e ->
  exists i,
    futures !! i = Some (Raise e) /\
    forall j o, (j < i)%nat -> futures !! j = Some o -> is_ret o = true.
Proof.
  induction futures as [|[v|e'] futures IH]; simpl.
  - discriminate.
  - destruct (collect futures) as [vs|e0] eqn:Hc; [discriminate|].
    intros [= ->]. destruct (IH eq_refl) as (i & Hi & Hbefore).
    exists (S i). split; [exact Hi|].
    intros [|j] o Hj; simpl.
    + by intros [= <-].
    + apply Hbefore. lia.
  - intros [= ->]. exists 0%nat. split; [done|]. intros j o Hj. lia.
Qed.

(** X1: [run_batch] calls [run] once per pair, in the order of the
    input, whether or not one of the calls raises, and it prints
    nothing: the trace grows by the calls of the batch and by nothing
    else. *)
Theorem run_batch_calls_every_pair self pairs s :
  trace (run_batch run cpus self pairs s).1 = trace s ++ batch_events pairs /\
  calls (trace (run_batch run cpus self pairs s).1) =
    calls (trace s) ++ pairs /\
  world (run_batch run cpus self pairs s).1 =
    world (submit_all run pairs s).1.
Proof.
  rewrite run_batch_unfold.
  assert (Htr : trace (submit_all run pairs s).1 =
                trace s ++ batch_events pairs).
  { destruct s as [w tr]. by rewrite submit_all_frame. }
  destruct (collect (submit_all run pairs s).2); simpl;
    rewrite Htr, calls_app, calls_batch_events; done.
Qed.

(** X2: what leaves [run_batch] comes from [run]: a returned list holds
    the value of every call, and a raised exception is the one that the
    first raising call raised. *)
Theorem run_batch_outcome_inv self pairs s :
  (forall s' v,
     run_batch run cpus self pairs s = (s', Ret v) ->
     exists results,
       v = VList results /\ (submit_all run pairs s).2 = Ret <$> results) /\
  (forall s' e,
     run_batch run cpus self pairs s = (s', Raise e) ->
     exists i,
       (submit_all run pairs s).2 !! i = Some (Raise e) /\
       forall j o, (j < i)%nat ->
                   (submit_all run pairs s).2 !! j = Some o ->
                   is_ret o = true).
Proof.
  split.
  - intros s' v Hrb.
    destruct (run_batch_ret_inv run cpus self pairs s s' v Hrb)
      as (results & Hv & _ & Hf).
    by exists results.
  - intros s' e. rewrite run_batch_unfold.
    destruct (collect (submit_all run pairs s).2) as [vs|e0] eqn:Hc;
      [discriminate|].
    intros [= _ ->]. by apply collect_raise_inv.
Qed.

(** A [run] whose outcome is the same in every state of the world has
    the same futures whatever the state the batch starts in, and so
    whatever the order in which its calls act. *)
Lemma submit_all_stateless :
  (forall task img w w', (run task img w).2 = (run task img w').2) ->
  forall pairs s s', (submit_all run pairs s).2 = (submit_all run pairs s').2.
Proof.
  intros Hstateless. induction pairs as [|[task img] pairs IH]; intros s s'.
  - done.
  - simpl. unfold call_run.
    pose proof (Hstateless task img (world s) (world s')) as Ho.
    destruct (run task img (world s)) as [w1 o1].
    destruct (run task img (world s')) as [w1' o1']. simpl in Ho. subst o1'.
    specialize (IH (State w1 (trace s ++ [EvRun task img]))
                  (State w1' (trace s' ++ [EvRun task img]))).
    destruct (submit_all run pairs (State w1 _)) as [s2 os].
    destruct (submit_all run pairs (State w1' _)) as [s2' os'].
    simpl in *. by rewrite IH.
Qed.

Lemma run_batch_outcome self pairs s :
  (run_batch run cpus self pairs s).2 =
    match collect (submit_all run pairs s).2 with
    | Ret results => Ret (VList results)
    | Raise e => Raise e
    end.
Proof.
  rewrite run_batch_unfold. by destruct (collect (submit_all run pairs s).2).
Qed.

(** X3: a batch is the sum of its parts, for a [run] whose outcome does
    not depend on the state of the world (it may still change it).
    When [run_batch] returns on a first list of pairs and on a second
    one, it returns the two result lists joined on the joined input; an
    exception of the first part is the exception of the whole, whatever
    the second part does; an exception of the second part is the
    exception of the whole when the first part returns.  The three
    batches are separate executions, each from a state of its own. *)
Theorem run_batch_app self pairs1 pairs2 s s1 s2 :
  (forall task img w w', (run task img w).2 = (run task img w').2) ->
  (forall results1 results2,
     (run_batch run cpus self pairs1 s1).2 = Ret (VList results1) ->
     (run_batch run cpus self pairs2 s2).2 = Ret (VList results2) ->
     (run_batch run cpus self (pairs1 ++ pairs2) s).2 =
       Ret (VList (results1 ++ results2))) /\
  (forall e,
     (run_batch run cpus self pairs1 s1).2 = Raise e ->
     (run_batch run cpus self (pairs1 ++ pairs2) s).2 = Raise e) /\
  (forall results1 e,
     (run_batch run cpus self pairs1 s1).2 = Ret (VList results1) ->
     (run_batch run cpus self pairs2 s2).2 = Raise e ->
     (run_batch run cpus self (pairs1 ++ pairs2) s).2 = Raise e).
Proof.
  intros Hstateless. rewrite !run_batch_outcome, submit_all_app.
  rewrite (submit_all_stateless Hstateless pairs1 s1 s).
  destruct (submit_all run pairs1 s) as [s1' os1].
  rewrite (submit_all_stateless Hstateless pairs2 s2 s1').
  destruct (submit_all run pairs2 s1') as [s2' os2]. cbn [fst snd].
  rewrite collect_app.
  destruct (collect os1) as [vs1|e1]; destruct (collect os2) as [vs2|e2];
    repeat split; intros; simplify_eq; done.
Qed.

(** ** The retry loops *)

(** The body fails with the errors [msgs] and then raises an exception
    that is not an [Exception], within the budget: that exception leaves
    the loop, and the tries that the budget still had are not made. *)
Lemma retry_loop_interrupted body evs :
  emits body evs ->
  forall msgs n w tr msg w',
    (length msgs < n)%nat ->
    outcomes body (S (length msgs)) w =
      ((failure <$> msgs) ++ [Raise (BaseException msg)], w') ->
    retry_loop n body (State w tr) =
      (State w' (tr ++ failed_attempts evs msgs ++ evs),
       Raise (BaseException msg)).
Proof.
  intros Hev. induction msgs as [|m msgs IH]; intros n w tr msg w' Hn Hout.
  - destruct n as [|n]; [simpl in Hn; lia|].
    simpl in Hout.
    destruct (body (State w [])) as [s1 o] eqn:Hb.
    injection Hout as Ho Hw. subst o w'.
    apply retry_loop_pass. rewrite Hev, Hb. done.
  - destruct n as [|n]; [simpl in Hn; lia|].
    change (outcomes body (S (length (m :: msgs))) w)
      with (let '(s1, o) := body (State w []) in
            let '(os, w') := outcomes body (S (length msgs)) (world s1) in
            (o :: os, w')) in Hout.
    destruct (body (State w [])) as [s1 o] eqn:Hb.
    destruct (outcomes body (S (length msgs)) (world s1)) as [os w2] eqn:Ho.
    injection Hout as Ho' Hos Hw. subst o os w'.
    rewrite (retry_loop_raise n body (State w tr)
               (State (world s1) (tr ++ evs)) m)
      by (rewrite Hev, Hb; done).
    simpl in Hn. simpl world. simpl trace.
    rewrite (IH n (world s1) _ msg w2) by (done || lia).
    unfold failed_attempts. simpl. by rewrite <- !app_assoc.
Qed.

(** X4: the handlers of the two retry methods are for [Exception].  An
    exception outside it ([KeyboardInterrupt], [SystemExit]) that [run]
    raises, at the first attempt or after failed ones, is not printed
    and not retried: it leaves the method, and the attempts the budget
    still allowed are not made. *)
Theorem retries_pass_base_exception self msgs msg :
  Z.of_nat (length msgs) < retries self ->
  (forall task img s w',
     outcomes (call_run run task img) (S (length msgs)) (world s) =
       ((failure <$> msgs) ++ [Raise (BaseException msg)], w') ->
     run_with_retries run self task img s =
       (State w' (trace s ++ failed_attempts [EvRun task img] msgs
                          ++ [EvRun task img]),
        Raise (BaseException msg))) /\
  (forall pairs s w',
     outcomes (run_batch run cpus self pairs) (S (length msgs)) (world s) =
       ((failure <$> msgs) ++ [Raise (BaseException msg)], w') ->
     run_batch_with_retries run cpus self pairs s =
       (State w' (trace s ++ failed_attempts (batch_events pairs) msgs
                          ++ batch_events pairs),
        Raise (BaseException msg))).
Proof.
  intros Hk. apply (range_len_lt (retries self)) in Hk. split.
  - intros task img [w tr] w' Hout. unfold run_with_retries.
    by apply (retry_loop_interrupted _ _ (call_run_emits run task img)).
  - intros pairs [w tr] w' Hout. unfold run_batch_with_retries.
    by apply (retry_loop_interrupted _ _ (run_batch_emits run cpus self pairs)).
Qed.

(** X5: when every one of the whole-batch attempts that the budget
    allows fails, [run_batch_with_retries] raises nothing and returns
    [None]; by then it has submitted every pair once per attempt and
    printed one line per attempt. *)
Theorem run_batch_with_retries_exhausted self pairs s msgs w' :
  length msgs = range_len (retries self) ->
  outcomes (run_batch run cpus self pairs) (length msgs) (world s) =
    (failure <$> msgs, w') ->
  run_batch_with_retries run cpus self pairs s =
    (State w' (trace s ++ failed_attempts (batch_events pairs) msgs),
     Ret VNone) /\
  calls (trace (run_batch_with_retries run cpus self pairs s).1) =
    calls (trace s) ++ concat (replicate (length msgs) pairs).
Proof.
  intros Hlen Hout.
  assert (Heq : run_batch_with_retries run cpus self pairs s =
            (State w' (trace s ++ failed_attempts (batch_events pairs) msgs),
             Ret VNone)).
  { unfold run_batch_with_retries. rewrite <- Hlen. destruct s as [w tr].
    by apply (retry_loop_exhausted _ _ (run_batch_emits run cpus self pairs)). }
  split; [exact Heq|]. rewrite Heq. simpl.
  by rewrite calls_app, calls_failed_attempts, calls_batch_events.
Qed.

(** ** run_many *)

Lemma calls_prints (vs : list value) : calls (EvPrint <$> vs) = [].
Proof. by induction vs. Qed.

Lemma returned_before_raise_fmap (vs : list value) :
  returned_before_raise (Ret <$> vs) = vs.
Proof.
  induction vs as [|v vs IH]; [done|].
  rewrite fmap_cons. simpl. by f_equal.
Qed.

Lemma print_results_spec results s :
  print_results results s =
    (State (world s) (trace s ++ (EvPrint <$> returned_before_raise results)),
     match collect results with
     | Ret _ => Ret VNone
     | Raise e => Raise e
     end).
Proof.
  revert s. induction results as [|[v|e] results IH]; intros [w tr].
  - simpl. unfold ret. by rewrite app_nil_r.
  - simpl. unfold bind, emit. simpl. rewrite IH. simpl.
    rewrite <- app_assoc. by destruct (collect results).
  - simpl. unfold raise. by rewrite app_nil_r.
Qed.

(** X6: once its pool is built, [run_many] makes the call of every pair
    of [zip(tasks, imgs)] and only then prints: the results, in input
    order, up to the first call that raised.  It raises the exception of
    that call, and returns [None] when there is none; the results
    themselves are never returned. *)
Theorem run_many_prints_in_order self tasks imgs s n :
  run_many_executor cpus self = Ret n ->
  run_many run cpus self tasks imgs s =
    (State (world (submit_all run (zip tasks imgs) s).1)
       (trace s ++ batch_events (zip tasks imgs) ++
        (EvPrint <$>
           returned_before_raise (submit_all run (zip tasks imgs) s).2)),
     match collect (submit_all run (zip tasks imgs) s).2 with
     | Ret _ => Ret VNone
     | Raise e => Raise e
     end) /\
  (forall results, (run_many run cpus self tasks imgs s).2 <> Ret (VList results)).
Proof.
  intros Hpool.
  assert (Heq : run_many run cpus self tasks imgs s =
    (State (world (submit_all run (zip tasks imgs) s).1)
       (trace s ++ batch_events (zip tasks imgs) ++
        (EvPrint <$>
           returned_before_raise (submit_all run (zip tasks imgs) s).2)),
     match collect (submit_all run (zip tasks imgs) s).2 with
     | Ret _ => Ret VNone
     | Raise e => Raise e
     end)).
  { unfold run_many. rewrite Hpool.
    pose proof (submit_all_frame run (zip tasks imgs) (world s) (trace s))
      as Hf.
    destruct s as [w tr]. simpl in Hf.
    destruct (submit_all run (zip tasks imgs) (State w tr)) as [s' results].
    rewrite print_results_spec. simpl.
    injection Hf as Hs' _. rewrite Hs'. simpl. by rewrite <- app_assoc. }
  split; [exact Heq|]. rewrite Heq. simpl.
  by destruct (collect (submit_all run (zip tasks imgs) s).2).
Qed.

(** X7: [run_many] is refused exactly when [self.max_workers] is an
    integer that is not positive: the [ValueError] of the pool leaves
    [run_many] before any call of [run] and before any output.  With
    [max_workers=None] the pool is always built. *)
Theorem run_many_refused self tasks imgs s :
  ((exists e, run_many_executor cpus self = Raise e) <->
   (exists n, max_workers self = Some n /\ n <= 0)) /\
  (forall e,
     run_many_executor cpus self = Raise e ->
     run_many run cpus self tasks imgs s = (s, Raise e) /\
     e = Exception "max_workers must be greater than 0").
Proof.
  unfold run_many, run_many_executor.
  destruct (max_workers self) as [n|].
  - unfold ThreadPoolExecutor. destruct (n <=? 0) eqn:Hn.
    + apply Z.leb_le in Hn. split.
      * split; [intros _; by exists n|intros _; by eexists].
      * by intros e [= <-].
    + apply Z.leb_gt in Hn. split.
      * split; [intros [e [=]]|intros (m & [= <-] & Hm); lia].
      * intros e [=].
  - rewrite (proj1 (default_pool_size cpus)). split.
    + split; [intros [e [=]]|intros (m & [=] & _)].
    + intros e [=].
Qed.

(** X8: [run_many] and [run_batch] on the same pairs, for a [run] whose
    outcome does not depend on the state of the world.  Once the pool of
    [run_many] is built, [run_many(tasks, imgs)] makes the calls that
    [run_batch(zip(tasks, imgs))] makes; where [run_batch] returns a
    list, [run_many] prints the elements of that list in order and
    returns [None]; where [run_batch] raises, [run_many] raises the same
    exception.  The two are separate executions, each from a state of its
    own. *)
Theorem run_many_run_batch self tasks imgs s s' n :
  (forall task img w w', (run task img w).2 = (run task img w').2) ->
  run_many_executor cpus self = Ret n ->
  calls (trace (run_many run cpus self tasks imgs s).1) =
    calls (trace s) ++ zip tasks imgs /\
  calls (trace (run_batch run cpus self (zip tasks imgs) s').1) =
    calls (trace s') ++ zip tasks imgs /\
  (forall results,
     (run_batch run cpus self (zip tasks imgs) s').2 = Ret (VList results) ->
     (run_many run cpus self tasks imgs s).2 = Ret VNone /\
     trace (run_many run cpus self tasks imgs s).1 =
       trace s ++ batch_events (zip tasks imgs) ++ (EvPrint <$> results)) /\
  (forall e,
     (run_batch run cpus self (zip tasks imgs) s').2 = Raise e ->
     (run_many run cpus self tasks imgs s).2 = Raise e).
Proof.
  intros Hstateless Hpool.
  assert (Hmany : run_many run cpus self tasks imgs s =
    (State (world (submit_all run (zip tasks imgs) s).1)
       (trace s ++ batch_events (zip tasks imgs) ++
        (EvPrint <$>
           returned_before_raise (submit_all run (zip tasks imgs) s).2)),
     match collect (submit_all run (zip tasks imgs) s).2 with
     | Ret _ => Ret VNone
     | Raise e => Raise e
     end)).
  { unfold run_many. rewrite Hpool.
    pose proof (submit_all_frame run (zip tasks imgs) (world s) (trace s))
      as Hf.
    destruct s as [w tr]. simpl in Hf.
    destruct (submit_all run (zip tasks imgs) (State w tr)) as [s0 results].
    rewrite print_results_spec. simpl.
    injection Hf as Hs0 _. rewrite Hs0. simpl. by rewrite <- app_assoc. }
  rewrite Hmany, run_batch_outcome. cbn [fst snd trace].
  rewrite (submit_all_stateless Hstateless (zip tasks imgs) s' s).
  split; [|split; [|split]].
  - by rewrite !calls_app, calls_batch_events, calls_prints, app_nil_r.
  - rewrite run_batch_unfold.
    assert (Htr : trace (submit_all run (zip tasks imgs) s').1 =
                  trace s' ++ batch_events (zip tasks imgs)).
    { destruct s' as [w tr]. by rewrite submit_all_frame. }
    destruct (collect (submit_all run (zip tasks imgs) s').2); simpl;
      by rewrite Htr, calls_app, calls_batch_events.
  - intros results.
    destruct (collect (submit_all run (zip tasks imgs) s).2) as [vs|e0] eqn:Hc;
      [|discriminate].
    intros [= <-]. split; [done|].
    apply collect_ret in Hc. rewrite Hc.
    by rewrite returned_before_raise_fmap.
  - intros e.
    destruct (collect (submit_all run (zip tasks imgs) s).2) as [vs|e0];
      [discriminate|]. by intros [= <-].
Qed.

(** ** The base class's [run] *)

Lemma submit_all_const (f : string -> string -> value) :
  (forall task img w, run task img w = (w, Ret (f task img))) ->
  forall pairs s,
    submit_all run pairs s =
      (State (world s) (trace s ++ batch_events pairs),
       (fun p => Ret (f p.1 p.2)) <$> pairs).
Proof.
  intros Hpure. induction pairs as [|[task img] pairs IH]; intros [w tr].
  - simpl. by rewrite app_nil_r.
  - simpl. unfold call_run. simpl. rewrite Hpure, IH. simpl.
    by rewrite <- app_assoc.
Qed.

End BatchRunnerMore.

(** X9: with the [run] of the base class itself, whose body is [pass],
    every batch result is [None]: [run_batch] returns a list of as many
    [None]s as there are pairs, and [run_with_retries] with a positive
    budget returns [None] after a single call, the value it also returns
    when the budget is exhausted. *)
Theorem base_run_returns_none {World : Type} cpus self :
  (forall pairs (s : state (World := World)),
     run_batch BaseMultiModalModel_run cpus self pairs s =
       (State (world s) (trace s ++ batch_events pairs),
        Ret (VList (replicate (length pairs) VNone)))) /\
  (0 < retries self ->
   forall task img (s : state (World := World)),
     run_with_retries BaseMultiModalModel_run self task img s =
       (State (world s) (trace s ++ [EvRun task img]), Ret VNone)).
Proof.
  split.
  - intros pairs s. rewrite run_batch_unfold.
    rewrite (submit_all_const BaseMultiModalModel_run (fun _ _ => VNone))
      by done.
    cbn [fst snd].
    replace ((fun p : string * string => Ret VNone) <$> pairs)
      with (Ret <$> replicate (length pairs) VNone).
    + by rewrite (proj2 (collect_ret _ _) eq_refl).
    + induction pairs as [|p pairs IH]; [done|].
      cbn [length replicate]. rewrite !fmap_cons. by f_equal.
  - intros Hpos task img s. unfold run_with_retries.
    destruct (range_len (retries self)) as [|n] eqn:Hn;
      [unfold range_len in Hn; lia|].
    by apply retry_loop_ret.
Qed.

(** ** The extras at work *)

Lemma run_batch_outcome_inv_witness :
  exists i,
    (submit_all (flaky_run [1; 2]%nat) five_pairs (State 0%nat [])).2 !! i =
      Some (Raise (Exception "boom")) /\
    forall j o,
      (j < i)%nat ->
      (submit_all (flaky_run [1; 2]%nat) five_pairs (State 0%nat [])).2 !! j =
        Some o ->
      is_ret o = true.
Proof.
  apply (proj2 (run_batch_outcome_inv (flaky_run [1; 2]%nat) 1
                  (__init__ None (Some 10) 3) five_pairs (State 0%nat []))
           (State 5%nat (batch_events five_pairs)) (Exception "boom")).
  reflexivity.
Defined.

Lemma run_batch_app_witness :
  (run_batch (scripted_run []) 1 (__init__ None (Some 10) 3)
     (sample_pairs ++ five_pairs) (State 0%nat [])).2 =
    Ret (VList ([VStr "describe"; VStr "count"] ++
                [VStr "t0"; VStr "t1"; VStr "t2"; VStr "t3"; VStr "t4"])).
Proof.
  apply (proj1 (run_batch_app (scripted_run []) 1 (__init__ None (Some 10) 3)
                  sample_pairs five_pairs (State 0%nat []) (State 7%nat [])
                  (State 2%nat []) (fun _ _ _ _ => eq_refl)));
    reflexivity.
Defined.

Lemma retries_pass_base_exception_witness :
  run_with_retries
    (scripted_run [failure "boom"; Raise (BaseException "KeyboardInterrupt")])
    (__init__ None (Some 10) 3) "describe" "cat.png" (State 0%nat []) =
    (State 2%nat
       [EvRun "describe" "cat.png"; EvPrintError (Exception "boom");
        EvRun "describe" "cat.png"],
     Raise (BaseException "KeyboardInterrupt")).
Proof.
  apply (proj1 (retries_pass_base_exception
                  (scripted_run
                     [failure "boom"; Raise (BaseException "KeyboardInterrupt")])
                  1 (__init__ None (Some 10) 3) ["boom"] "KeyboardInterrupt"
                  ltac:(simpl; lia))
           "describe" "cat.png" (State 0%nat []) 2%nat).
  reflexivity.
Defined.

Lemma run_batch_with_retries_exhausted_witness :
  run_batch_with_retries (flaky_run [0; 2; 4]%nat) 1
    (__init__ None (Some 10) 3) sample_pairs (State 0%nat []) =
    (State 6%nat
       (failed_attempts (batch_events sample_pairs) ["boom"; "boom"; "boom"]),
     Ret VNone).
Proof.
  destruct (run_batch_with_retries_exhausted (flaky_run [0; 2; 4]%nat) 1
              (__init__ None (Some 10) 3) sample_pairs (State 0%nat [])
              ["boom"; "boom"; "boom"] 6%nat) as [Hrun _].
  - reflexivity.
  - reflexivity.
  - exact Hrun.
Defined.

Lemma run_many_prints_in_order_witness :
  run_many (flaky_run [1]%nat) 1 (__init__ None (Some 10) 3)
    ["t0"; "t1"; "t2"] ["i0"; "i1"; "i2"] (State 0%nat []) =
    (State 3%nat
       [EvRun "t0" "i0"; EvRun "t1" "i1"; EvRun "t2" "i2";
        EvPrint (VStr "t0")],
     Raise (Exception "boom")).
Proof.
  destruct (run_many_prints_in_order (flaky_run [1]%nat) 1
              (__init__ None (Some 10) 3) ["t0"; "t1"; "t2"]
              ["i0"; "i1"; "i2"] (State 0%nat []) 10 eq_refl) as [Hrun _].
  exact Hrun.
Defined.

Lemma run_many_refused_witness :
  run_many echo_run 1 (__init__ None (Some 0) 3) ["t0"] ["i0"] (State tt []) =
    (State tt [], Raise (Exception "max_workers must be greater than 0")).
Proof.
  destruct (proj2 (run_many_refused echo_run 1 (__init__ None (Some 0) 3)
                     ["t0"] ["i0"] (State tt []))
              (Exception "max_workers must be greater than 0") eq_refl)
    as [Hrun _].
  exact Hrun.
Defined.

Lemma run_many_run_batch_witness :
  (run_many (scripted_run []) 1 (__init__ None (Some 10) 3)
     ["describe"; "count"] ["cat.png"; "dogs.png"] (State 0%nat [])).2 =
    Ret VNone /\
  trace (run_many (scripted_run []) 1 (__init__ None (Some 10) 3)
           ["describe"; "count"] ["cat.png"; "dogs.png"] (State 0%nat [])).1 =
    [] ++ batch_events (zip ["describe"; "count"] ["cat.png"; "dogs.png"]) ++
    (EvPrint <$> [VStr "describe"; VStr "count"]).
Proof.
  destruct (run_many_run_batch (scripted_run []) 1
              (__init__ None (Some 10) 3)
              ["describe"; "count"] ["cat.png"; "dogs.png"]
              (State 0%nat []) (State 5%nat []) 10
              (fun _ _ _ _ => eq_refl) eq_refl) as (_ & _ & Hret & _).
  exact (Hret [VStr "describe"; VStr "count"] eq_refl).
Defined.

Lemma base_run_returns_none_witness :
  run_with_retries BaseMultiModalModel_run (__init__ None (Some 10) 3)
    "describe" "cat.png" (State tt []) =
    (State tt [EvRun "describe" "cat.png"], Ret VNone).
Proof.
  apply (proj2 (base_run_returns_none 1 (__init__ None (Some 10) 3))).
  simpl. lia.
Defined.

(** ** encode_img *)

(** The encoder on the test vectors of RFC 4648. *)
Example b64encode_rfc4648 :
  b64encode (String.list_byte_of_string "") = String.list_ascii_of_string "" /\
  b64encode (String.list_byte_of_string "f") = String.list_ascii_of_string "Zg==" /\
  b64encode (String.list_byte_of_string "fo") = String.list_ascii_of_string "Zm8=" /\
  b64encode (String.list_byte_of_string "foo") = String.list_ascii_of_string "Zm9v" /\
  b64encode (String.list_byte_of_string "foob") =
    String.list_ascii_of_string "Zm9vYg==" /\
  b64encode (String.list_byte_of_string "fooba") =
    String.list_ascii_of_string "Zm9vYmE=" /\
  b64encode (String.list_byte_of_string "foobar") =
    String.list_ascii_of_string "Zm9vYmFy".
Proof. repeat split; vm_compute; reflexivity. Qed.

Ltac div_lia := zify; Z.to_euclidean_division_equations; lia.

(** Induction on the data three bytes at a time, as [b64encode]
    recurses. *)
Lemma list_ind3 {A} (P : list A -> Prop) :
  P [] ->
  (forall a, P [a]) ->
  (forall a b, P [a; b]) ->
  (forall a b c rest, P rest -> P (a :: b :: c :: rest)) ->
  forall l, P l.
Proof.
  intros H0 H1 H2 H3 l.
  assert (Hall : P l /\ (forall a, P (a :: l)) /\ (forall a b, P (a :: b :: l))).
  { induction l as [|x l (IH0 & IH1 & IH2)]; [by auto|].
    split; [apply IH1|]. split; [intros a; apply IH2|].
    intros a b. by apply H3. }
  apply Hall.
Qed.

Lemma b64_alphabet_length : length b64_alphabet = 64%nat.
Proof. reflexivity. Qed.

Lemma b64_char_lookup (n : N) :
  (n < 64)%N -> b64_alphabet !! N.to_nat n = Some (b64_char n).
Proof.
  intros Hn.
  destruct (lookup_lt_is_Some_2 b64_alphabet (N.to_nat n)) as [c Hc];
    [rewrite b64_alphabet_length; lia|].
  rewrite Hc. f_equal. symmetry. by apply nth_lookup_Some.
Qed.

Lemma b64_char_in (n : N) : (n < 64)%N -> b64_char n ∈ b64_alphabet.
Proof. intros Hn. eapply list_elem_of_lookup_2, b64_char_lookup, Hn. Qed.

Lemma b64_alphabet_NoDup : NoDup b64_alphabet.
Proof. apply (bool_decide_unpack _). by vm_compute. Qed.

Lemma b64_pad_not_in : b64_pad ∉ b64_alphabet.
Proof. apply (bool_decide_unpack _). by vm_compute. Qed.

Lemma b64_char_inj (n m : N) :
  (n < 64)%N -> (m < 64)%N -> b64_char n = b64_char m -> n = m.
Proof.
  intros Hn Hm Heq.
  pose proof (b64_char_lookup n Hn) as Hln.
  pose proof (b64_char_lookup m Hm) as Hlm.
  rewrite Heq in Hln.
  pose proof (NoDup_lookup _ _ _ _ b64_alphabet_NoDup Hln Hlm). lia.
Qed.

Lemma b64_char_not_pad (n : N) : (n < 64)%N -> b64_char n <> b64_pad.
Proof.
  intros Hn Heq. apply b64_pad_not_in. rewrite <- Heq. by apply b64_char_in.
Qed.

Lemma b64_group_bound a b c : (b64_group a b c < 16777216)%N.
Proof.
  unfold b64_group.
  pose proof (Byte.to_N_bounded a). pose proof (Byte.to_N_bounded b).
  pose proof (Byte.to_N_bounded c). lia.
Qed.

Lemma byte_to_N_inj (a b : Byte.byte) : Byte.to_N a = Byte.to_N b -> a = b.
Proof.
  intros Heq. pose proof (Byte.of_to_N a) as Ha.
  rewrite Heq, Byte.of_to_N in Ha. by injection Ha.
Qed.

(** The four six-bit numbers of a group are below 64. *)
Lemma b64_sextets_bound (n : N) :
  (n < 16777216 ->
   n / 262144 < 64 /\ n / 4096 mod 64 < 64 /\ n / 64 mod 64 < 64 /\
   n mod 64 < 64)%N.
Proof. intros Hn. repeat split; div_lia. Qed.

Lemma b64_quad_in (n : N) :
  (n < 16777216)%N -> Forall (fun c => c ∈ b64_alphabet) (b64_quad n).
Proof.
  intros Hn. destruct (b64_sextets_bound n Hn) as (H0 & H1 & H2 & H3).
  unfold b64_quad.
  repeat (apply Forall_cons_2; [by apply b64_char_in|]). apply Forall_nil_2.
Qed.

Lemma b64encode_length (data : list Byte.byte) :
  length (b64encode data) = (4 * ((length data + 2) / 3))%nat.
Proof.
  induction data as [| a | a b | a b c rest IH] using list_ind3;
    [done..|].
  cbn [b64encode b64_quad length app]. rewrite IH.
  replace (S (S (S (length rest))) + 2)%nat
    with ((length rest + 2) + 1 * 3)%nat by lia.
  rewrite Nat.div_add by lia. lia.
Qed.

(** The encoding is characters of the alphabet followed by the padding,
    and the padding says how many bytes the last group had. *)
Lemma b64encode_shape (data : list Byte.byte) :
  exists body,
    b64encode data =
      body ++ replicate ((3 - length data mod 3) mod 3) b64_pad /\
    Forall (fun c => c ∈ b64_alphabet) body.
Proof.
  induction data as [| a | a b | a b c rest IH] using list_ind3.
  - by exists [].
  - exists (take 2 (b64_quad (b64_group a Byte.x00 Byte.x00))).
    split; [done|]. apply Forall_take, b64_quad_in, b64_group_bound.
  - exists (take 3 (b64_quad (b64_group a b Byte.x00))).
    split; [done|]. apply Forall_take, b64_quad_in, b64_group_bound.
  - destruct IH as (body & Heq & Hbody).
    exists (b64_quad (b64_group a b c) ++ body). split.
    + cbn [b64encode length]. rewrite Heq, <- app_assoc.
      replace (S (S (S (length rest)))) with (length rest + 1 * 3)%nat by lia.
      by rewrite Nat.Div0.mod_add.
    + apply Forall_app_2; [apply b64_quad_in, b64_group_bound|done].
Qed.

Lemma b64_chars_ascii :
  Forall (fun c => (nat_of_ascii c < 128)%nat) (b64_pad :: b64_alphabet).
Proof. apply (bool_decide_unpack _). by vm_compute. Qed.

Lemma b64encode_ascii (data : list Byte.byte) :
  Forall (fun c => (nat_of_ascii c < 128)%nat) (b64encode data).
Proof.
  destruct (b64encode_shape data) as (body & -> & Hbody).
  pose proof b64_chars_ascii as Hascii. rewrite Forall_forall in Hascii.
  apply Forall_app_2.
  - eapply Forall_impl; [exact Hbody|]. intros c Hc. apply Hascii. by right.
  - apply Forall_replicate. apply Hascii. left.
Qed.

(** The characters of a group determine its bytes: two characters the
    single byte of a last group, three characters its two bytes, four
    characters the three bytes of a full group. *)
Lemma b64_group_inj1 a a' :
  let n := b64_group a Byte.x00 Byte.x00 in
  let n' := b64_group a' Byte.x00 Byte.x00 in
  b64_char (n / 262144) = b64_char (n' / 262144) ->
  b64_char (n / 4096 mod 64) = b64_char (n' / 4096 mod 64) ->
  a = a'.
Proof.
  intros n n' H0 H1.
  destruct (b64_sextets_bound n (b64_group_bound _ _ _)) as (B0 & B1 & _).
  destruct (b64_sextets_bound n' (b64_group_bound _ _ _)) as (B0' & B1' & _).
  apply b64_char_inj in H0; [|done..]. apply b64_char_inj in H1; [|done..].
  apply byte_to_N_inj.
  subst n n'. unfold b64_group in *.
  change (Byte.to_N Byte.x00) with 0%N in *.
  pose proof (Byte.to_N_bounded a). pose proof (Byte.to_N_bounded a').
  clear B0 B1 B0' B1'. div_lia.
Qed.

Lemma b64_group_inj2 a b a' b' :
  let n := b64_group a b Byte.x00 in
  let n' := b64_group a' b' Byte.x00 in
  b64_char (n / 262144) = b64_char (n' / 262144) ->
  b64_char (n / 4096 mod 64) = b64_char (n' / 4096 mod 64) ->
  b64_char (n / 64 mod 64) = b64_char (n' / 64 mod 64) ->
  a = a' /\ b = b'.
Proof.
  intros n n' H0 H1 H2.
  destruct (b64_sextets_bound n (b64_group_bound _ _ _)) as (B0 & B1 & B2 & _).
  destruct (b64_sextets_bound n' (b64_group_bound _ _ _))
    as (B0' & B1' & B2' & _).
  apply b64_char_inj in H0; [|done..]. apply b64_char_inj in H1; [|done..].
  apply b64_char_inj in H2; [|done..].
  subst n n'. unfold b64_group in *.
  change (Byte.to_N Byte.x00) with 0%N in *.
  pose proof (Byte.to_N_bounded a). pose proof (Byte.to_N_bounded a').
  pose proof (Byte.to_N_bounded b). pose proof (Byte.to_N_bounded b').
  clear B0 B1 B2 B0' B1' B2'.
  assert (Byte.to_N a = Byte.to_N a' /\ Byte.to_N b = Byte.to_N b')
    as [Ha Hb] by div_lia.
  split; by apply byte_to_N_inj.
Qed.

Lemma b64_group_inj3 a b c a' b' c' :
  b64_quad (b64_group a b c) = b64_quad (b64_group a' b' c') ->
  a = a' /\ b = b' /\ c = c'.
Proof.
  unfold b64_quad. intros [= H0 H1 H2 H3].
  destruct (b64_sextets_bound _ (b64_group_bound a b c))
    as (B0 & B1 & B2 & B3).
  destruct (b64_sextets_bound _ (b64_group_bound a' b' c'))
    as (B0' & B1' & B2' & B3').
  apply b64_char_inj in H0; [|done..]. apply b64_char_inj in H1; [|done..].
  apply b64_char_inj in H2; [|done..]. apply b64_char_inj in H3; [|done..].
  pose proof (b64_group_bound a b c) as Hn.
  pose proof (b64_group_bound a' b' c') as Hn'.
  clear B0 B1 B2 B3 B0' B1' B2' B3'.
  assert (Hg : b64_group a b c = b64_group a' b' c') by div_lia.
  unfold b64_group in Hg.
  pose proof (Byte.to_N_bounded a). pose proof (Byte.to_N_bounded a').
  pose proof (Byte.to_N_bounded b). pose proof (Byte.to_N_bounded b').
  pose proof (Byte.to_N_bounded c). pose proof (Byte.to_N_bounded c').
  assert (Byte.to_N a = Byte.to_N a' /\ Byte.to_N b = Byte.to_N b' /\
          Byte.to_N c = Byte.to_N c') as (Ha & Hb & Hc) by lia.
  repeat split; by apply byte_to_N_inj.
Qed.

(** No two byte strings have the same encoding. *)
Lemma b64encode_inj (data1 data2 : list Byte.byte) :
  b64encode data1 = b64encode data2 -> data1 = data2.
Proof.
  revert data2.
  induction data1 as [| a | a b | a b c rest IH] using list_ind3;
    intros data2.
  - destruct data2 as [|a' [|b' [|c' rest']]]; [done|discriminate..].
  - destruct data2 as [|a' [|b' [|c' rest']]];
      cbn [b64encode b64_quad take app]; intros Heq.
    + discriminate.
    + injection Heq as H0 H1. f_equal. by apply b64_group_inj1.
    + injection Heq as _ _ H2. symmetry in H2.
      apply b64_char_not_pad in H2; [done|].
      apply (b64_sextets_bound _ (b64_group_bound _ _ _)).
    + injection Heq as _ _ H2 _. symmetry in H2.
      apply b64_char_not_pad in H2; [done|].
      apply (b64_sextets_bound _ (b64_group_bound _ _ _)).
  - destruct data2 as [|a' [|b' [|c' rest']]];
      cbn [b64encode b64_quad take app]; intros Heq.
    + discriminate.
    + injection Heq as _ _ H2.
      apply b64_char_not_pad in H2; [done|].
      apply (b64_sextets_bound _ (b64_group_bound _ _ _)).
    + injection Heq as H0 H1 H2.
      destruct (b64_group_inj2 a b a' b' H0 H1 H2) as [-> ->]. done.
    + injection Heq as _ _ _ H3 _. symmetry in H3.
      apply b64_char_not_pad in H3; [done|].
      apply (b64_sextets_bound _ (b64_group_bound _ _ _)).
  - destruct data2 as [|a' [|b' [|c' rest']]]; intros Heq.
    + discriminate.
    + cbn [b64encode b64_quad take app] in Heq. injection Heq as _ _ H2 _.
      apply b64_char_not_pad in H2; [done|].
      apply (b64_sextets_bound _ (b64_group_bound _ _ _)).
    + cbn [b64encode b64_quad take app] in Heq. injection Heq as _ _ _ H3 _.
      apply b64_char_not_pad in H3; [done|].
      apply (b64_sextets_bound _ (b64_group_bound _ _ _)).
    + cbn [b64encode] in Heq.
      apply app_inj_1 in Heq as [Hq Hrest]; [|done].
      destruct (b64_group_inj3 _ _ _ _ _ _ Hq) as (-> & -> & ->).
      by rewrite (IH rest' Hrest).
Qed.

Lemma string_of_list_ascii_length (l : list Ascii.ascii) :
  String.length (String.string_of_list_ascii l) = length l.
Proof. induction l as [|c l IH]; [done|]. simpl. by rewrite IH. Qed.

Lemma string_of_list_ascii_inj (l1 l2 : list Ascii.ascii) :
  String.string_of_list_ascii l1 = String.string_of_list_ascii l2 -> l1 = l2.
Proof.
  intros Heq.
  rewrite <- (String.list_ascii_of_string_of_list_ascii l1),
    <- (String.list_ascii_of_string_of_list_ascii l2). by rewrite Heq.
Qed.

(** X14: when [encode_img] returns, the file was read, and the string
    has four characters for every three bytes of the file, a last group
    of one or two bytes counting as a full one. *)
Theorem encode_img_length read_file img str :
  encode_img read_file img = Ret str ->
  exists data,
    read_file img = Ret data /\
    String.length str = (4 * ((length data + 2) / 3))%nat.
Proof.
  unfold encode_img. destruct (read_file img) as [data|e]; [|discriminate].
  intros [= <-]. exists data. split; [done|].
  by rewrite string_of_list_ascii_length, b64encode_length.
Qed.

(** X15: the string that [encode_img] returns consists of characters of
    the base64 alphabet followed by the padding: no [=], one or two,
    according to the length of the file modulo 3.  All its characters
    are ASCII, which is why decoding the encoded bytes as UTF-8 cannot
    fail. *)
Theorem encode_img_alphabet read_file img str :
  encode_img read_file img = Ret str ->
  exists data body,
    read_file img = Ret data /\
    String.list_ascii_of_string str =
      body ++ replicate ((3 - length data mod 3) mod 3) b64_pad /\
    Forall (fun c => c ∈ b64_alphabet) body /\
    Forall (fun c => (nat_of_ascii c < 128)%nat)
      (String.list_ascii_of_string str).
Proof.
  unfold encode_img. destruct (read_file img) as [data|e]; [|discriminate].
  intros [= <-]. rewrite String.list_ascii_of_string_of_list_ascii.
  destruct (b64encode_shape data) as (body & Heq & Hbody).
  exists data, body. repeat split; [exact Heq|exact Hbody|].
  apply b64encode_ascii.
Qed.

(** X16: [encode_img] loses nothing: two paths for which it returns the
    same string hold files with the same bytes. *)
Theorem encode_img_injective read_file img1 img2 str :
  encode_img read_file img1 = Ret str ->
  encode_img read_file img2 = Ret str ->
  read_file img1 = read_file img2.
Proof.
  unfold encode_img.
  destruct (read_file img1) as [data1|e1]; [|discriminate].
  destruct (read_file img2) as [data2|e2]; [|discriminate].
  intros [= <-] [= Heq]. f_equal. symmetry.
  by apply b64encode_inj, string_of_list_ascii_inj.
Qed.

(** [encode_img] raises exactly when the file cannot be read, and then
    what [open] or [read] raised; the encoding itself never fails. *)
Lemma encode_img_raises read_file img e :
  encode_img read_file img = Raise e <-> read_file img = Raise e.
Proof.
  unfold encode_img. destruct (read_file img) as [data|e0]; [done|].
  split; by intros [= ->].
Qed.

Lemma encode_img_length_witness :
  exists data,
    one_file "cat.png" (String.list_byte_of_string "fooba") "cat.png" =
      Ret data /\
    String.length "Zm9vYmE=" = (4 * ((length data + 2) / 3))%nat.
Proof.
  apply (encode_img_length
           (one_file "cat.png" (String.list_byte_of_string "fooba"))
           "cat.png" "Zm9vYmE=").
  reflexivity.
Defined.

Lemma encode_img_alphabet_witness :
  exists data body,
    one_file "cat.png" (String.list_byte_of_string "fooba") "cat.png" =
      Ret data /\
    String.list_ascii_of_string "Zm9vYmE=" =
      body ++ replicate ((3 - length data mod 3) mod 3) b64_pad /\
    Forall (fun c => c ∈ b64_alphabet) body /\
    Forall (fun c => (nat_of_ascii c < 128)%nat)
      (String.list_ascii_of_string "Zm9vYmE=").
Proof.
  apply (encode_img_alphabet
           (one_file "cat.png" (String.list_byte_of_string "fooba"))
           "cat.png" "Zm9vYmE=").
  reflexivity.
Defined.

Lemma encode_img_injective_witness :
  (fun img : string => Ret (String.list_byte_of_string "foo")) "a.png" =
  (fun img : string => Ret (String.list_byte_of_string "foo")) "b.png".
Proof.
  apply (encode_img_injective
           (fun _ => Ret (String.list_byte_of_string "foo"))
           "a.png" "b.png" "Zm9v"); reflexivity.
Defined.

(** ** Chat history, continued *)

Section ChatHistoryMore.

Variable iter_order : gset string -> list string.

Lemma unique_length_size (self : BaseMultiModalModel) :
  (forall X : gset string, iter_order X ≡ₚ elements X) ->
  get_unique_chat_history_length iter_order self =
    size (list_to_set (chat_history self) : gset string).
Proof.
  intros Hiter. unfold get_unique_chat_history_length. by rewrite Hiter.
Qed.

(** X10: the unique length equals the length of the history exactly when
    the history has no message twice. *)
Theorem unique_length_eq_iff_nodup (self : BaseMultiModalModel) :
  (forall X : gset string, iter_order X ≡ₚ elements X) ->
  get_unique_chat_history_length iter_order self =
    get_chat_history_length self <->
  NoDup (chat_history self).
Proof.
  intros Hiter. unfold get_unique_chat_history_length, get_chat_history_length.
  rewrite Hiter. set (l := chat_history self).
  assert (Hsub : elements (list_to_set l : gset string) ⊆+ l).
  { apply NoDup_submseteq; [apply NoDup_elements|].
    intros x. by rewrite elem_of_elements, elem_of_list_to_set. }
  split.
  - intros Hlen.
    assert (Hperm : elements (list_to_set l : gset string) ≡ₚ l).
    { apply submseteq_length_Permutation; [done|]. by rewrite Hlen. }
    rewrite <- Hperm. apply NoDup_elements.
  - intros Hnd. by rewrite elements_list_to_set.
Qed.

(** X11: the unique view is empty exactly when the history is; after
    [clear_chat_history] the history, the unique view and both lengths
    are empty and zero. *)
Theorem unique_chat_history_empty (self : BaseMultiModalModel) :
  (forall X : gset string, iter_order X ≡ₚ elements X) ->
  (get_unique_chat_history_length iter_order self = 0%nat <->
   chat_history self = []) /\
  (get_unique_chat_history iter_order self = [] <-> chat_history self = []) /\
  get_unique_chat_history iter_order (clear_chat_history self) = [] /\
  get_unique_chat_history_length iter_order (clear_chat_history self) = 0%nat /\
  get_chat_history_length (clear_chat_history self) = 0%nat.
Proof.
  intros Hiter.
  assert (Hnil : forall h : list string,
            iter_order (list_to_set h) = [] <-> h = []).
  { intros h. split.
    - intros Hempty. destruct h as [|x h]; [done|].
      assert (Hx : x ∈ iter_order (list_to_set (x :: h))).
      { rewrite Hiter, elem_of_elements, elem_of_list_to_set. left. }
      rewrite Hempty in Hx. by apply elem_of_nil in Hx.
    - intros ->. apply Permutation_nil_r.
      by rewrite Hiter, list_to_set_nil, elements_empty. }
  unfold get_unique_chat_history_length, get_unique_chat_history,
    get_chat_history_length, clear_chat_history.
  split; [|split; [|split; [|split]]].
  - rewrite length_zero_iff_nil. apply Hnil.
  - apply Hnil.
  - cbn [chat_history set_chat_history]. by apply Hnil.
  - cbn [chat_history set_chat_history]. rewrite length_zero_iff_nil.
    by apply Hnil.
  - done.
Qed.

(** X12: a message added at the end of the history leaves the unique
    length as it is when the history already holds it, and raises it by
    one when it does not. *)
Theorem unique_length_append (self : BaseMultiModalModel) (msg : string) :
  (forall X : gset string, iter_order X ≡ₚ elements X) ->
  (msg ∈ chat_history self ->
   get_unique_chat_history_length iter_order
     (set_chat_history (chat_history self ++ [msg]) self) =
     get_unique_chat_history_length iter_order self) /\
  (msg ∉ chat_history self ->
   get_unique_chat_history_length iter_order
     (set_chat_history (chat_history self ++ [msg]) self) =
     S (get_unique_chat_history_length iter_order self)).
Proof.
  intros Hiter. rewrite !unique_length_size by done.
  cbn [chat_history set_chat_history]. set (l := chat_history self). split.
  - intros Hin.
    replace (list_to_set (l ++ [msg]) : gset string) with
      (list_to_set l : gset string); [done|].
    apply set_eq. intros x.
    rewrite !elem_of_list_to_set, elem_of_app, list_elem_of_singleton.
    split; [by left|]. by intros [?| ->].
  - intros Hnin.
    replace (list_to_set (l ++ [msg]) : gset string) with
      ({[msg]} ∪ list_to_set l : gset string).
    + rewrite size_union, size_singleton; [lia|].
      intros x. rewrite elem_of_singleton, elem_of_list_to_set.
      by intros ->.
    + apply set_eq. intros x.
      rewrite elem_of_union, elem_of_singleton, !elem_of_list_to_set,
        elem_of_app, list_elem_of_singleton.
      tauto.
Qed.

(** X13: the unique view depends on which messages the history holds,
    not on their order or number: two histories with the same messages
    have unique views that are permutations of each other, of the same
    length; and the unique view of the unique view is the unique view. *)
Theorem unique_chat_history_same_messages (self other : BaseMultiModalModel) :
  (forall X : gset string, iter_order X ≡ₚ elements X) ->
  ((forall msg, msg ∈ chat_history self <-> msg ∈ chat_history other) ->
   get_unique_chat_history iter_order self ≡ₚ
     get_unique_chat_history iter_order other /\
   get_unique_chat_history_length iter_order self =
     get_unique_chat_history_length iter_order other) /\
  get_unique_chat_history iter_order
    (set_chat_history (get_unique_chat_history iter_order self) self) ≡ₚ
    get_unique_chat_history iter_order self.
Proof.
  intros Hiter.
  assert (Hsame : forall h1 h2 : list string,
            (forall msg, msg ∈ h1 <-> msg ∈ h2) ->
            iter_order (list_to_set h1) ≡ₚ iter_order (list_to_set h2)).
  { intros h1 h2 Hmem. rewrite !Hiter.
    replace (list_to_set h1 : gset string) with (list_to_set h2 : gset string);
      [done|].
    apply set_eq. intros x. by rewrite !elem_of_list_to_set, Hmem. }
  unfold get_unique_chat_history, get_unique_chat_history_length. split.
  - intros Hmem. split; [by apply Hsame|]. by rewrite (Hsame _ _ Hmem).
  - simpl. apply Hsame. intros msg.
    by rewrite Hiter, elem_of_elements, elem_of_list_to_set.
Qed.

End ChatHistoryMore.

Lemma unique_length_eq_iff_nodup_witness :
  get_unique_chat_history_length elements
    (set_chat_history ["hi"; "describe"] (__init__ None (Some 10) 3)) =
  get_chat_history_length
    (set_chat_history ["hi"; "describe"] (__init__ None (Some 10) 3)).
Proof.
  apply (unique_length_eq_iff_nodup elements
           (set_chat_history ["hi"; "describe"] (__init__ None (Some 10) 3))
           (fun X => reflexivity (elements X))).
  apply (bool_decide_unpack _). by vm_compute.
Defined.

Lemma unique_chat_history_empty_witness :
  get_unique_chat_history elements
    (clear_chat_history
       (set_chat_history ["hi"; "hi"] (__init__ None (Some 10) 3))) = [].
Proof.
  apply (unique_chat_history_empty elements
           (set_chat_history ["hi"; "hi"] (__init__ None (Some 10) 3))
           (fun X => reflexivity (elements X))).
Defined.

Lemma unique_length_append_witness :
  get_unique_chat_history_length elements
    (set_chat_history (["hi"; "describe"] ++ ["hi"])
       (set_chat_history ["hi"; "describe"] (__init__ None (Some 10) 3))) =
  get_unique_chat_history_length elements
    (set_chat_history ["hi"; "describe"] (__init__ None (Some 10) 3)).
Proof.
  apply (unique_length_append elements
           (set_chat_history ["hi"; "describe"] (__init__ None (Some 10) 3))
           "hi" (fun X => reflexivity (elements X))).
  apply (bool_decide_unpack _). by vm_compute.
Defined.

Lemma unique_chat_history_same_messages_witness :
  get_unique_chat_history_length elements
    (set_chat_history ["hi"; "describe"; "hi"] (__init__ None (Some 10) 3)) =
  get_unique_chat_history_length elements
    (set_chat_history ["describe"; "hi"] (__init__ None (Some 10) 3)).
Proof.
  apply (proj1 (unique_chat_history_same_messages elements
                  (set_chat_history ["hi"; "describe"; "hi"]
                     (__init__ None (Some 10) 3))
                  (set_chat_history ["describe"; "hi"]
                     (__init__ None (Some 10) 3))
                  (fun X => reflexivity (elements X)))).
  intros msg. simpl. rewrite !elem_of_cons. tauto.
Defined.

(** ** The worker pool, continued *)

Lemma run_many_pool_bounded_witness :
  Z.of_nat (Pool.running
              {| Pool.workers := 2; Pool.queued := 2; Pool.running := 2;
                 Pool.finished := 1 |}) <= 2.
Proof.
  apply (run_many_pool_bounded 1 (__init__ None (Some 2) 3)
           ["t0"; "t1"; "t2"; "t3"; "t4"] ["i0"; "i1"; "i2"; "i3"; "i4"]
           2 (Pool.submitted 2 5)
           [Pool.Start; Pool.Start; Pool.Finish; Pool.Start]);
    reflexivity.
Defined.

(** ** run_many on an empty side *)

(** X18: when one of the two lists is empty, [run_many] does nothing,
    whatever the other list holds: no call of [run], no output, [None]
    as result, provided the pool is built. *)
Theorem run_many_empty_side {World : Type}
    (run : string -> string -> World -> World * res value) cpus self
    tasks imgs (s : state (World := World)) n :
  run_many_executor cpus self = Ret n ->
  tasks = [] \/ imgs = [] ->
  run_many run cpus self tasks imgs s = (s, Ret VNone).
Proof.
  intros Hpool Hempty. unfold run_many. rewrite Hpool.
  assert (Hzip : zip tasks imgs = []).
  { destruct Hempty as [-> | ->]; [done|]. by destruct tasks. }
  by rewrite Hzip.
Qed.

Lemma run_many_empty_side_witness :
  run_many echo_run 1 (__init__ None (Some 10) 3) ["t0"; "t1"] []
    (State tt []) = (State tt [], Ret VNone).
Proof.
  apply (run_many_empty_side echo_run 1 (__init__ None (Some 10) 3)
           ["t0"; "t1"] [] (State tt []) 10 eq_refl).
  by right.
Defined.
